(** * orc-sh/kit: cron-expression utility and execution-history views

    A shallow embedding of
      - [apps/web/src/lib/cron-utils.ts] (parser, validator, describer and
        next-run projection of cron expressions), and
      - the webhook details page (execution display transformation, status
        badge, summary statistics and the paginated, de-duplicating
        execution-history loader),
      - the query hook [hooks/use-job-executions.ts], the form of the
        notifications page and the authentication store,
    followed by the properties of the specification that concern them and
    by further properties of the code. *)

From stdpp Require Import base list gmap strings sorting pretty.
From Stdlib Require Import ZArith Lia.

(** ** JavaScript string primitives used by the sources

    Strings are sequences of ASCII characters; [\s] is read as the six ASCII
    white-space characters (tab, line feed, vertical tab, form feed, carriage
    return, space), which is [Ascii.is_space]. *)
Module Js.

(** [String.prototype.trimStart]. *)
Fixpoint trimStart (s : string) : string :=
  match s with
  | "" => ""
  | String a s' => if Ascii.is_space a then trimStart s' else s
  end.

(** [String.prototype.trimEnd]: a character is dropped when it is white
    space and nothing but white space follows it. *)
Fixpoint trimEnd (s : string) : string :=
  match s with
  | "" => ""
  | String a s' =>
      match trimEnd s' with
      | "" => if Ascii.is_space a then "" else String a ""
      | t => String a t
      end
  end.

(** [String.prototype.trim]. *)
Definition trim (s : string) : string := trimEnd (trimStart s).

(** [s.split(/\s+/)]: the pieces between maximal runs of white space.  A
    leading or trailing run leaves an empty first or last piece, and the
    empty string splits into one empty piece. [inSep] records that the
    previous character belonged to a separator, [cur] is the piece read so
    far. *)
Fixpoint split_ws_go (inSep : bool) (cur : string) (s : string) : list string :=
  match s with
  | "" => [cur]
  | String a s' =>
      if Ascii.is_space a then
        if inSep then split_ws_go true "" s'
        else cur :: split_ws_go true "" s'
      else split_ws_go false (cur +:+ String a "") s'
  end.

Definition split_ws (s : string) : list string := split_ws_go false "" s.

(** [parts.join(sep)]. *)
Definition join (sep : string) (parts : list string) : string :=
  String.concat sep parts.

(** [s.startsWith(p)]. *)
Definition startsWith (p s : string) : bool := String.prefix p s.

(** [s.substring(n)]: the string without its first [n] characters. *)
Fixpoint substring_from (n : nat) (s : string) : string :=
  match n, s with
  | 0, _ => s
  | S n', String _ s' => substring_from n' s'
  | S _, "" => ""
  end.

Definition lower_ascii (a : Ascii.ascii) : Ascii.ascii :=
  let n := Ascii.N_of_ascii a in
  if ((65 <=? n) && (n <=? 90))%N then Ascii.ascii_of_N (n + 32) else a.

(** [s.toLowerCase()]. *)
Fixpoint toLowerCase (s : string) : string :=
  match s with
  | "" => ""
  | String a s' => String (lower_ascii a) (toLowerCase s')
  end.

(** [hay.includes(needle)]. *)
Fixpoint includes (needle hay : string) : bool :=
  String.prefix needle hay ||
  match hay with
  | "" => false
  | String _ hay' => includes needle hay'
  end.

(** A string that does not end in white space, as [trimEnd] leaves it. *)
Fixpoint endsClean (s : string) : bool :=
  match s with
  | "" => true
  | String a "" => negb (Ascii.is_space a)
  | String _ s' => endsClean s'
  end.

(** [x || dflt] on an optional string: [undefined] and the empty string are
    falsy. *)
Definition or_else (x : option string) (dflt : string) : string :=
  match x with
  | Some "" | None => dflt
  | Some m => m
  end.

End Js.

(** ** [cron-utils.ts] *)
Module Cron.

(** An instant, as milliseconds since the epoch ([Date.prototype.getTime]). *)
Definition Instant := Z.

(** The two packages that [cron-utils.ts] imports, and the [Date] methods it
    calls, are outside the repository; they are the interface below.

    - [CronExpressionParser_parse cron currentDate seconds] is
      [CronExpressionParser.parse(cron, {currentDate, seconds})]: the
      iterator it returns, or the [message] of what it throws;
    - [interval_next] is [interval.next().toDate()], [None] when it throws;
    - [cronstrue_toString] is [cronstrue.toString], [None] when it throws;
    - [getFullYear] and [toLocaleString d withYear] stand for the [Date]
      methods of these names, the latter with the fixed options of
      [generateNextRuns] and [year: 'numeric'] exactly when [withYear]. *)
Class CronEnv := {
  Interval : Type;
  CronExpressionParser_parse :
    string → option Instant → bool → Interval + option string;
  interval_next : Interval → option (Instant * Interval);
  cronstrue_toString : string → option string;
  getFullYear : Instant → Z;
  toLocaleString : Instant → bool → string;
}.

Record CronField := {
  second : option string;
  minute : string;
  hour : string;
  dayOfMonth : string;
  month : string;
  dayOfWeek : string;
}.

Record CronDescription := {
  description : string;
  nextRuns : list string;
  isValid : bool;
  error : option string;
}.

(** The result object of [parseCronExpression]. *)
Record ParseResult := {
  fields : option CronField;
  parse_error : option string;
}.

(** The result object of [validateCronExpression]. *)
Record Validation := {
  v_isValid : bool;
  v_error : option string;
}.

Definition field_count_message : string :=
  "Cron expression must have exactly 5 fields (minute hour day month weekday) or 6 fields (second minute hour day month weekday)".

Definition parseCronExpression (cron : string) : ParseResult :=
  let trimmed := Js.trim cron in
  let parts := Js.split_ws trimmed in
  match parts with
  | [p0; p1; p2; p3; p4] =>
      {| fields := Some {| second := None; minute := p0; hour := p1;
                           dayOfMonth := p2; month := p3; dayOfWeek := p4 |};
         parse_error := None |}
  | [p0; p1; p2; p3; p4; p5] =>
      {| fields := Some {| second := Some p0; minute := p1; hour := p2;
                           dayOfMonth := p3; month := p4; dayOfWeek := p5 |};
         parse_error := None |}
  | _ => {| fields := None; parse_error := Some field_count_message |}
  end.

Section WithEnv.
Context `{CronEnv}.

Definition validateCronExpression (cron : string) : Validation :=
  let hasSeconds := bool_decide (length (Js.split_ws (Js.trim cron)) = 6) in
  match CronExpressionParser_parse cron None hasSeconds with
  | inl _ => {| v_isValid := true; v_error := None |}
  | inr message =>
      {| v_isValid := false;
         v_error := Some (Js.or_else message "Invalid cron expression") |}
  end.

(** The loop of [generateNextRuns], [fuel] iterations left: each turn asks
    the iterator for the next date and stops at the first failure.  It
    returns the dates; [generateNextRuns] formats them. *)
Fixpoint nextDates (fuel : nat) (interval : Interval) : list Instant :=
  match fuel with
  | 0 => []
  | S fuel' =>
      match interval_next interval with
      | Some (nextDate, interval') => nextDate :: nextDates fuel' interval'
      | None => []
      end
  end.

Definition formatRun (now nextDate : Instant) : string :=
  toLocaleString nextDate (bool_decide (getFullYear nextDate ≠ getFullYear now)).

(** The dates that [generateNextRuns] pushes, before formatting. *)
Definition projectRuns (cron : string) (hasSeconds : bool) (now : Instant)
  : list Instant :=
  match CronExpressionParser_parse cron (Some now) hasSeconds with
  | inl interval => nextDates 5 interval
  | inr _ => []
  end.

(** [now] is the value of [new Date()] read on entry. *)
Definition generateNextRuns (cron : string) (hasSeconds : bool) (now : Instant)
  : list string :=
  formatRun now <$> projectRuns cron hasSeconds now.

Definition plural (interval : string) : string :=
  if bool_decide (interval ≠ "1") then "s" else "".

(** The description computed inside the inner [try]; [None] when
    [cronstrue.toString] throws. *)
Definition describeParts (cron : string) (parts : list string) : option string :=
  if bool_decide (length parts = 6) then
    let secondField := default "" (head parts) in
    let fiveFieldCron := Js.join " " (tail parts) in
    if bool_decide (secondField = "*") then Some "Every second"
    else if Js.startsWith "*/" secondField then
      let interval := Js.substring_from 2 secondField in
      fiveFieldDesc ← cronstrue_toString fiveFieldCron;
      if Js.includes "every minute" (Js.toLowerCase fiveFieldDesc) then
        Some ("Every " +:+ interval +:+ " second" +:+ plural interval)
      else
        Some ("Every " +:+ interval +:+ " second" +:+ plural interval +:+ ", "
              +:+ Js.toLowerCase fiveFieldDesc)
    else if bool_decide (secondField = "0") then
      cronstrue_toString fiveFieldCron
    else
      fiveFieldDesc ← cronstrue_toString fiveFieldCron;
      Some (fiveFieldDesc +:+ " at second " +:+ secondField)
  else cronstrue_toString cron.

(** Nothing in the outer [try] block throws (the inner [try] and
    [generateNextRuns] catch what the libraries throw), so its [catch]
    branch has no counterpart here. *)
Definition describeCronExpression (cron : string) (now : Instant)
  : CronDescription :=
  let validation := validateCronExpression cron in
  if negb (v_isValid validation) then
    {| description := ""; nextRuns := []; isValid := false;
       error := v_error validation |}
  else
    let parts := Js.split_ws (Js.trim cron) in
    let hasSeconds := bool_decide (length parts = 6) in
    {| description := default "Valid cron expression" (describeParts cron parts);
       nextRuns := generateNextRuns cron hasSeconds now;
       isValid := true;
       error := None |}.

(** [yields it ts it']: successive calls of [next()] on [it] return the
    dates [ts] and leave the iterator as [it']. *)
Inductive yields : Interval → list Instant → Interval → Prop :=
| yields_nil it : yields it [] it
| yields_cons it t it1 ts it2 :
    interval_next it = Some (t, it1) → yields it1 ts it2 →
    yields it (t :: ts) it2.

(** Modelled from the spec: the occurrence calculator ([cron-parser]) is
    not part of the repository.  Section 4.2 asks for occurrences that are
    strictly increasing and strictly later than the reference instant; for
    the iterator that [generateNextRuns] drives this reads: an iterator
    created with [currentDate: now] stands at [now], and [next()] returns a
    date after the one the iterator stands at and moves there.  [cursor]
    names the date an iterator stands at. *)
Definition calculatorContract (cursor : Interval → Instant) : Prop :=
  (∀ cron now seconds it,
     CronExpressionParser_parse cron (Some now) seconds = inl it →
     cursor it = now) ∧
  (∀ it t it',
     interval_next it = Some (t, it') → (cursor it < t)%Z ∧ cursor it' = t).

End WithEnv.

(** A small stand-in for the libraries, to evaluate the definitions on
    concrete inputs: a calculator that fires every minute, three times at
    most, takes up to six fields and rejects more, and a renderer that
    knows two expressions. *)
Definition sampleEnv : CronEnv :=
  {| Interval := Instant * nat;
     CronExpressionParser_parse cron currentDate _ :=
       if bool_decide (6 < length (String.words cron))
       then inr (Some "Invalid cron expression, too many fields")
       else inl (default 0%Z currentDate, 3);
     interval_next it :=
       match it.2 with
       | 0 => None
       | S k => Some ((it.1 + 60000)%Z, ((it.1 + 60000)%Z, k))
       end;
     cronstrue_toString cron :=
       if bool_decide (cron = "* * * * *") then Some "Every minute"
       else if bool_decide (cron = "0 9 * * 1")
       then Some "At 09:00 AM, only on Monday"
       else None;
     getFullYear t := (1970 + t / 31556952000)%Z;
     toLocaleString t withYear := if withYear then "next year" else "this year" |}.

(** The presets of the schedule form ([CRON_EXAMPLES]). *)
Record CronExample := {
  expression : string;
  preset_description : string;
  preset_label : string;
}.

Definition CRON_EXAMPLES : list CronExample :=
  [ {| expression := "* * * * * *"; preset_description := "Every second";
       preset_label := "Every second" |};
    {| expression := "*/10 * * * * *"; preset_description := "Every 10 seconds";
       preset_label := "Every 10 seconds" |};
    {| expression := "0 * * * * *"; preset_description := "Every minute";
       preset_label := "Every minute" |};
    {| expression := "0 */5 * * * *"; preset_description := "Every 5 minutes";
       preset_label := "Every 5 minutes" |};
    {| expression := "0 0 * * * *"; preset_description := "Every hour at minute 0";
       preset_label := "Every hour" |};
    {| expression := "0 0 14 * * *"; preset_description := "Every day at 2:00 PM";
       preset_label := "Daily at 2 PM" |};
    {| expression := "0 0 9 * * 1"; preset_description := "Every Monday at 9:00 AM";
       preset_label := "Weekly on Monday" |};
    {| expression := "0 0 0 1 * *";
       preset_description := "First day of month at midnight";
       preset_label := "Monthly" |};
    {| expression := "0 0 0 * * 0"; preset_description := "Every Sunday at midnight";
       preset_label := "Weekly on Sunday" |};
    {| expression := "0 30 14 * * *"; preset_description := "Every day at 2:30 PM";
       preset_label := "Daily at 2:30 PM" |} ].

(** The fields of a parse result in the order of the expression. *)
Definition fieldList (f : CronField) : list string :=
  from_option (λ s, [s]) [] (second f) ++
  [minute f; hour f; dayOfMonth f; month f; dayOfWeek f].

(** A string without white space. *)
Fixpoint spaceFree (s : string) : bool :=
  match s with
  | "" => true
  | String a s' => negb (Ascii.is_space a) && spaceFree s'
  end.

End Cron.

(** ** Execution records and their display ([webhook-details] page) *)

(** Modelled from the spec: the wire type [JobExecution] of
    [@/types/webhook.types] is not among the sources.  The fields are those
    that [transformExecution] reads and section 3 of the specification lists;
    dates are the instants they denote.  [response_body], [started_at] and
    [finished_at] are passed through to the detail panel and take part in no
    computation below. *)
Record JobExecution := {
  id : string;
  status : string;
  created_at : Z;
  response_code : option Z;
  duration_ms : option Z;
  attempt : option Z;
  error : option string;
}.

Global Instance JobExecution_eq_dec : EqDecision JobExecution.
Proof. solve_decision. Defined.

(** An execution still in the queue, without a response code. *)
Definition queuedExecution : JobExecution :=
  {| id := "exec-1"; status := "queued"; created_at := 0;
     response_code := None; duration_ms := None; attempt := Some 1%Z;
     error := None |}.

(** [Math.round] of a quotient of two JavaScript numbers is a floating-point
    computation; the two uses in [summaryStats] are kept abstract. *)
Class JsNumber := {
  (** [Math.round(sum / n)] *)
  round_mean : Z → nat → Z;
  (** [Math.round((success / total) * 100)] *)
  round_percent : nat → nat → Z;
}.

Inductive BadgeStyle :=
| QueuedStyle       (* blue *)
| RunningStyle      (* purple *)
| TimeoutStyle      (* orange *)
| SuccessStyle      (* green, CheckCircle2 *)
| ClientErrorStyle  (* yellow, AlertCircle *)
| FailureStyle.     (* red, XCircle *)

Inductive BadgeLabel :=
| Text (t : string)
| Code (statusCode : Z).

Record Badge := { style : BadgeStyle; label : BadgeLabel }.

(** [statusCode >= 200 && statusCode < 300] *)
Definition is2xx (statusCode : Z) : bool :=
  bool_decide (200 ≤ statusCode)%Z && bool_decide (statusCode < 300)%Z.

(** [statusCode >= 400 && statusCode < 500] *)
Definition is4xx (statusCode : Z) : bool :=
  bool_decide (400 ≤ statusCode)%Z && bool_decide (statusCode < 500)%Z.

(** [execution.response_code || (status === 'success' ? 200 :
    status === 'failure' ? 500 : 0)]: an absent code and the code [0] are
    falsy. *)
Definition deriveStatusCode (execution : JobExecution) : Z :=
  let fallback :=
    if bool_decide (status execution = "success") then 200%Z
    else if bool_decide (status execution = "failure") then 500%Z
    else 0%Z in
  match response_code execution with
  | Some c => if bool_decide (c = 0%Z) then fallback else c
  | None => fallback
  end.

(** Records whose derived code is in [200,300). *)
Definition successfulBy (derive : JobExecution → Z) (l : list JobExecution)
  : list JobExecution :=
  filter (λ r, is2xx (derive r) = true) l.

(** The page with the paginated loader (the second document of
    [unnamed/part_003]). *)
Module Details.

Record Execution := {
  x_id : string;
  timestamp : Z;
  x_status : string;
  statusCode : Z;
  duration : option Z;
  x_attempt : option Z;
  x_error : option string;
}.

Definition transformExecution (execution : JobExecution) : Execution :=
  let statusCode := deriveStatusCode execution in
  {| x_id := id execution;
     timestamp := created_at execution;
     x_status :=
       if bool_decide (status execution = "success") then "success"
       else if bool_decide (status execution = "failure") then "error"
       else if bool_decide (status execution = "timed_out") then "timeout"
       else if bool_decide (status execution = "queued") then "queued"
       else if bool_decide (status execution = "running") then "running"
       else "error";
     statusCode := statusCode;
     duration := duration_ms execution;
     x_attempt := attempt execution;
     x_error := error execution |}.

(** The comparator [(a, b) => b.timestamp - a.timestamp] puts [a] first
    when it is not older than [b]. *)
Definition newest_first (a b : Execution) : Prop :=
  (timestamp b ≤ timestamp a)%Z.

Global Instance newest_first_dec : RelDecision newest_first.
Proof. intros a b. unfold newest_first. apply _. Defined.

(** The memo [executions]; [Array.prototype.sort] is [merge_sort] here
    (records of equal timestamp may come out in another order than the
    engine's). *)
Definition executions (loadedExecutions : list JobExecution) : list Execution :=
  if bool_decide (length loadedExecutions = 0) then []
  else merge_sort newest_first (transformExecution <$> loadedExecutions).

(** One bar of [chartData] (the [name] and the formatted [timestamp] are
    left out). *)
Record ChartBar := {
  bar_duration : Z;
  bar_status : string;
  bar_statusCode : Z;
}.

Definition chartBar (exec : Execution) : ChartBar :=
  {| bar_duration := default 0%Z (duration exec);
     bar_status := if is2xx (statusCode exec) then "success" else "error";
     bar_statusCode := statusCode exec |}.

Definition chartData (executions : list Execution) : list ChartBar :=
  chartBar <$> take 30 executions.

Record SummaryStats := {
  total : nat;
  success : nat;
  error_count : nat;
  avgDuration : Z;
  successRate : Z;
}.

Definition sumZ (l : list Z) : Z := foldl Z.add 0%Z l.

Definition summaryStats `{JsNumber} (executions : list Execution) : SummaryStats :=
  let total := length executions in
  let success := length (filter (λ e, is2xx (statusCode e) = true) executions) in
  let error := total - success in
  let executionsWithDuration := filter (λ e, duration e ≠ None) executions in
  let avgDuration :=
    if bool_decide (0 < length executionsWithDuration) then
      round_mean (sumZ ((λ e, default 0%Z (duration e)) <$> executionsWithDuration))
                 (length executionsWithDuration)
    else 0%Z in
  let successRate :=
    if bool_decide (0 < total) then round_percent success total else 0%Z in
  {| total := total; success := success; error_count := error;
     avgDuration := avgDuration; successRate := successRate |}.

(** The label [{statusCode || 'Error'}]. *)
Definition codeOrError (statusCode : Z) : BadgeLabel :=
  if bool_decide (statusCode = 0%Z) then Text "Error" else Code statusCode.

Definition getStatusBadge (status : string) (statusCode : Z) : Badge :=
  if bool_decide (status = "queued") then
    {| style := QueuedStyle; label := Text "Queued" |}
  else if bool_decide (status = "running") then
    {| style := RunningStyle; label := Text "Running" |}
  else if bool_decide (status = "timeout") then
    {| style := TimeoutStyle; label := Text "Timeout" |}
  else if is2xx statusCode then
    {| style := SuccessStyle; label := Code statusCode |}
  else if is4xx statusCode then
    {| style := ClientErrorStyle; label := Code statusCode |}
  else
    {| style := FailureStyle; label := codeOrError statusCode |}.

(** The badge of a list row: [getStatusBadge(execution.status,
    execution.statusCode)]. *)
Definition badgeOf (execution : Execution) : Badge :=
  getStatusBadge (x_status execution) (statusCode execution).

End Details.

(** The page without pagination
    ([apps/web/src/pages/webhook-details/index.tsx]). *)
Module Legacy.

Record Execution := {
  x_id : string;
  timestamp : Z;
  x_status : string;
  statusCode : Z;
  duration : Z;
}.

Definition transformExecution (execution : JobExecution) : Execution :=
  {| x_id := id execution;
     timestamp := created_at execution;
     x_status :=
       if bool_decide (status execution = "success") then "success"
       else if bool_decide (status execution = "failure") then "error"
       else if bool_decide (status execution = "timed_out") then "timeout"
       else "error";
     statusCode := deriveStatusCode execution;
     (* [execution.duration_ms || 0] *)
     duration := default 0%Z (duration_ms execution) |}.

Definition getStatusBadge (_status : string) (statusCode : Z) : Badge :=
  if is2xx statusCode then
    {| style := SuccessStyle; label := Code statusCode |}
  else if is4xx statusCode then
    {| style := ClientErrorStyle; label := Code statusCode |}
  else
    {| style := FailureStyle; label := Code statusCode |}.

Definition badgeOf (execution : Execution) : Badge :=
  getStatusBadge (x_status execution) (statusCode execution).

(** [success] and [error] of [summaryStats]. *)
Definition successCount (executions : list Execution) : nat :=
  length (filter (λ e, is2xx (statusCode e) = true) executions).

Definition errorCount (executions : list Execution) : nat :=
  length executions - successCount executions.

(** The comparator of the memo [executions], as in the paginated page. *)
Definition newest_first (a b : Execution) : Prop :=
  (timestamp b ≤ timestamp a)%Z.

Global Instance newest_first_dec : RelDecision newest_first.
Proof. intros a b. unfold newest_first. apply _. Defined.

(** The memo [executions]; the response of this version is the array of
    records itself. *)
Definition executions (executionsData : option (list JobExecution))
  : list Execution :=
  match executionsData with
  | None => []
  | Some d => merge_sort newest_first (transformExecution <$> d)
  end.

(** [avgDuration] of [summaryStats]: the mean over all executions. *)
Definition avgDuration `{JsNumber} (executions : list Execution) : Z :=
  if bool_decide (0 < length executions) then
    round_mean (Details.sumZ (duration <$> executions)) (length executions)
  else 0%Z.

End Legacy.

(** ** The execution-history loader of [WebhookDetailsPage]

    The component's [useState] cells, its three guard refs, what the two
    [useJobExecutions] observers currently return, and the dependency arrays
    of the last commit are one state record.  The bodies of the effects and
    handlers are transcribed one by one; React and the query client decide
    when they run, which [effects] and [step] spell out. *)
Module Loader.

(** [PaginatedJobExecutionsResponse]: [{ data, meta: { total } }]. *)
Record Page := {
  data : list JobExecution;
  meta_total : nat;
}.

Global Instance Page_eq_dec : EqDecision Page.
Proof. solve_decision. Defined.

(** The dependency arrays of the initialisation effect,
    [[executionsData, currentOffset, loadedExecutions.length, isRefreshing]],
    and of the append effect, [[moreExecutionsData, currentOffset]]. The
    query client keeps the identity of data that did not change, so data are
    compared by value. *)
Definition InitDeps : Type := option Page * nat * nat * bool.
Definition AppendDeps : Type := option Page * nat.

Record State := {
  (* useState *)
  loadedExecutions : list JobExecution;
  totalExecutions : nat;
  currentOffset : nat;
  hasMore : bool;
  isLoadingMore : bool;
  isRefreshing : bool;
  (* useRef *)
  hasMoreRef : bool;
  isLoadingMoreRef : bool;
  isLoadingMoreExecutionsRef : bool;
  (* useJobExecutions(id, 20, 0) *)
  executionsData : option Page;
  (* useJobExecutions(id, 20, loadMoreOffset) *)
  moreExecutionsData : option Page;
  isLoadingMoreExecutions : bool;
  (* the dependency arrays as of the last commit *)
  initDeps : InitDeps;
  appendDeps : AppendDeps;
}.

Definition setLoadedExecutions (v : list JobExecution) (s : State) : State :=
  {| loadedExecutions := v; totalExecutions := totalExecutions s;
     currentOffset := currentOffset s; hasMore := hasMore s;
     isLoadingMore := isLoadingMore s; isRefreshing := isRefreshing s;
     hasMoreRef := hasMoreRef s; isLoadingMoreRef := isLoadingMoreRef s;
     isLoadingMoreExecutionsRef := isLoadingMoreExecutionsRef s;
     executionsData := executionsData s;
     moreExecutionsData := moreExecutionsData s;
     isLoadingMoreExecutions := isLoadingMoreExecutions s;
     initDeps := initDeps s; appendDeps := appendDeps s |}.

Definition setTotalExecutions (v : nat) (s : State) : State :=
  {| loadedExecutions := loadedExecutions s; totalExecutions := v;
     currentOffset := currentOffset s; hasMore := hasMore s;
     isLoadingMore := isLoadingMore s; isRefreshing := isRefreshing s;
     hasMoreRef := hasMoreRef s; isLoadingMoreRef := isLoadingMoreRef s;
     isLoadingMoreExecutionsRef := isLoadingMoreExecutionsRef s;
     executionsData := executionsData s;
     moreExecutionsData := moreExecutionsData s;
     isLoadingMoreExecutions := isLoadingMoreExecutions s;
     initDeps := initDeps s; appendDeps := appendDeps s |}.

Definition setCurrentOffset (v : nat) (s : State) : State :=
  {| loadedExecutions := loadedExecutions s;
     totalExecutions := totalExecutions s; currentOffset := v;
     hasMore := hasMore s; isLoadingMore := isLoadingMore s;
     isRefreshing := isRefreshing s; hasMoreRef := hasMoreRef s;
     isLoadingMoreRef := isLoadingMoreRef s;
     isLoadingMoreExecutionsRef := isLoadingMoreExecutionsRef s;
     executionsData := executionsData s;
     moreExecutionsData := moreExecutionsData s;
     isLoadingMoreExecutions := isLoadingMoreExecutions s;
     initDeps := initDeps s; appendDeps := appendDeps s |}.

Definition setHasMore (v : bool) (s : State) : State :=
  {| loadedExecutions := loadedExecutions s;
     totalExecutions := totalExecutions s; currentOffset := currentOffset s;
     hasMore := v; isLoadingMore := isLoadingMore s;
     isRefreshing := isRefreshing s; hasMoreRef := hasMoreRef s;
     isLoadingMoreRef := isLoadingMoreRef s;
     isLoadingMoreExecutionsRef := isLoadingMoreExecutionsRef s;
     executionsData := executionsData s;
     moreExecutionsData := moreExecutionsData s;
     isLoadingMoreExecutions := isLoadingMoreExecutions s;
     initDeps := initDeps s; appendDeps := appendDeps s |}.

Definition setIsLoadingMore (v : bool) (s : State) : State :=
  {| loadedExecutions := loadedExecutions s;
     totalExecutions := totalExecutions s; currentOffset := currentOffset s;
     hasMore := hasMore s; isLoadingMore := v; isRefreshing := isRefreshing s;
     hasMoreRef := hasMoreRef s; isLoadingMoreRef := isLoadingMoreRef s;
     isLoadingMoreExecutionsRef := isLoadingMoreExecutionsRef s;
     executionsData := executionsData s;
     moreExecutionsData := moreExecutionsData s;
     isLoadingMoreExecutions := isLoadingMoreExecutions s;
     initDeps := initDeps s; appendDeps := appendDeps s |}.

Definition setIsRefreshing (v : bool) (s : State) : State :=
  {| loadedExecutions := loadedExecutions s;
     totalExecutions := totalExecutions s; currentOffset := currentOffset s;
     hasMore := hasMore s; isLoadingMore := isLoadingMore s; isRefreshing := v;
     hasMoreRef := hasMoreRef s; isLoadingMoreRef := isLoadingMoreRef s;
     isLoadingMoreExecutionsRef := isLoadingMoreExecutionsRef s;
     executionsData := executionsData s;
     moreExecutionsData := moreExecutionsData s;
     isLoadingMoreExecutions := isLoadingMoreExecutions s;
     initDeps := initDeps s; appendDeps := appendDeps s |}.

(** What the observer of the first-page query returns. *)
Definition withExecutionsData (v : option Page) (s : State) : State :=
  {| loadedExecutions := loadedExecutions s;
     totalExecutions := totalExecutions s; currentOffset := currentOffset s;
     hasMore := hasMore s; isLoadingMore := isLoadingMore s;
     isRefreshing := isRefreshing s; hasMoreRef := hasMoreRef s;
     isLoadingMoreRef := isLoadingMoreRef s;
     isLoadingMoreExecutionsRef := isLoadingMoreExecutionsRef s;
     executionsData := v; moreExecutionsData := moreExecutionsData s;
     isLoadingMoreExecutions := isLoadingMoreExecutions s;
     initDeps := initDeps s; appendDeps := appendDeps s |}.

(** What the observer of the load-more query returns: its [data] and its
    [isLoading]. *)
Definition withMoreQuery (v : option Page) (loading : bool) (s : State) : State :=
  {| loadedExecutions := loadedExecutions s;
     totalExecutions := totalExecutions s; currentOffset := currentOffset s;
     hasMore := hasMore s; isLoadingMore := isLoadingMore s;
     isRefreshing := isRefreshing s; hasMoreRef := hasMoreRef s;
     isLoadingMoreRef := isLoadingMoreRef s;
     isLoadingMoreExecutionsRef := isLoadingMoreExecutionsRef s;
     executionsData := executionsData s; moreExecutionsData := v;
     isLoadingMoreExecutions := loading; initDeps := initDeps s;
     appendDeps := appendDeps s |}.

(** The [current] fields of the three refs. *)
Definition setRefs (more loading loadingQuery : bool) (s : State) : State :=
  {| loadedExecutions := loadedExecutions s;
     totalExecutions := totalExecutions s; currentOffset := currentOffset s;
     hasMore := hasMore s; isLoadingMore := isLoadingMore s;
     isRefreshing := isRefreshing s; hasMoreRef := more;
     isLoadingMoreRef := loading; isLoadingMoreExecutionsRef := loadingQuery;
     executionsData := executionsData s;
     moreExecutionsData := moreExecutionsData s;
     isLoadingMoreExecutions := isLoadingMoreExecutions s;
     initDeps := initDeps s; appendDeps := appendDeps s |}.

(** The dependency arrays React keeps from a commit. *)
Definition setDeps (i : InitDeps) (a : AppendDeps) (s : State) : State :=
  {| loadedExecutions := loadedExecutions s;
     totalExecutions := totalExecutions s; currentOffset := currentOffset s;
     hasMore := hasMore s; isLoadingMore := isLoadingMore s;
     isRefreshing := isRefreshing s; hasMoreRef := hasMoreRef s;
     isLoadingMoreRef := isLoadingMoreRef s;
     isLoadingMoreExecutionsRef := isLoadingMoreExecutionsRef s;
     executionsData := executionsData s;
     moreExecutionsData := moreExecutionsData s;
     isLoadingMoreExecutions := isLoadingMoreExecutions s; initDeps := i;
     appendDeps := a |}.

(** Statements of a handler in program order: [s ▷ f ▷ g] is [f] then
    [g].  A handler or effect reads the cells of the render it belongs to
    and queues writes; the bodies below read [s] and each write goes to a
    cell of its own. *)
Notation "s ▷ f" := (f s) (at level 45, left associativity, only parsing).

(** The component after it has mounted: no data yet, every effect has run
    once (without writing anything, there being no data). *)
Definition initial : State :=
  {| loadedExecutions := []; totalExecutions := 0; currentOffset := 0;
     hasMore := true; isLoadingMore := false; isRefreshing := false;
     hasMoreRef := true; isLoadingMoreRef := false;
     isLoadingMoreExecutionsRef := false;
     executionsData := None; moreExecutionsData := None;
     isLoadingMoreExecutions := false;
     initDeps := (None, 0, 0, false); appendDeps := (None, 0) |}.

(** The memo [loadMoreOffset]; [None] is [undefined], which disables the
    load-more query. *)
Definition loadMoreOffset (s : State) : option nat :=
  if bool_decide (0 < currentOffset s) then Some (currentOffset s) else None.

(** The three effects that keep the refs in sync with the state.  A ref is
    written by its effect only, so running the effect on every commit equals
    running it when its dependency changed. *)
Definition syncRefs (s : State) : State :=
  s ▷ setRefs (hasMore s) (isLoadingMore s) (isLoadingMoreExecutions s).

(** The four writes shared by both branches of the initialisation effect. *)
Definition showFirstPage (d : Page) (s : State) : State :=
  s ▷ setLoadedExecutions (data d)
    ▷ setTotalExecutions (meta_total d)
    ▷ setHasMore (bool_decide (length (data d) = 20))
    ▷ setIsLoadingMore false.

(** "Initialize loaded executions when first data loads or on refresh". *)
Definition initEffect (s : State) : State :=
  match executionsData s with
  | Some d =>
      if bool_decide (currentOffset s = 0 ∧ length (loadedExecutions s) = 0)
      then showFirstPage d s
      else if bool_decide (currentOffset s = 0) && isRefreshing s
      then showFirstPage d s
      else s
  | None => s
  end.

(** The updater passed to [setLoadedExecutions] by the append effect. *)
Definition appendNew (page prev : list JobExecution) : list JobExecution :=
  let existingIds : gset string := list_to_set (id <$> prev) in
  let newExecutions := filter (λ e, id e ∉ existingIds) page in
  prev ++ newExecutions.

(** "Append more executions when loading more". *)
Definition appendEffect (s : State) : State :=
  match moreExecutionsData s with
  | Some d =>
      if bool_decide (0 < currentOffset s ∧ 0 < length (data d)) then
        s ▷ setLoadedExecutions (appendNew (data d) (loadedExecutions s))
          ▷ setHasMore (bool_decide (length (data d) = 20))
          ▷ setIsLoadingMore false
      else if bool_decide (0 < currentOffset s ∧ length (data d) = 0) then
        s ▷ setHasMore false ▷ setIsLoadingMore false
      else s
  | None => s
  end.

(** The guard of [loadMore], read from the refs. *)
Definition loadMoreAllowed (s : State) : bool :=
  negb (isLoadingMoreRef s) && hasMoreRef s && negb (isLoadingMoreExecutionsRef s).

Definition loadMore (s : State) : State :=
  if loadMoreAllowed s then
    s ▷ setIsLoadingMore true ▷ setCurrentOffset (currentOffset s + 20)
  else s.

(** "Reset when webhook ID changes". *)
Definition resetEffect (s : State) : State :=
  s ▷ setLoadedExecutions [] ▷ setTotalExecutions 0 ▷ setCurrentOffset 0
    ▷ setHasMore true ▷ setIsLoadingMore false.

(** The refresh button's [onClick], up to its first [await]. *)
Definition refreshStart (s : State) : State :=
  s ▷ setIsRefreshing true ▷ setCurrentOffset 0 ▷ setHasMore true
    ▷ setIsLoadingMore false ▷ setLoadedExecutions [].

(** The rest of [onClick], run when [refetchExecutions()] has resolved with
    [result.data = result]; the [finally] block ends it. *)
Definition refreshFinish (result : option Page) (s : State) : State :=
  (match result with
   | Some d =>
       if bool_decide (0 < length (data d)) then
         s ▷ setLoadedExecutions (data d)
           ▷ setTotalExecutions (meta_total d)
           ▷ setHasMore (bool_decide (length (data d) = 20))
       else s ▷ setTotalExecutions 0 ▷ setHasMore false
   | None => s ▷ setTotalExecutions 0 ▷ setHasMore false
   end) ▷ setIsRefreshing false.

(** What can happen to the mounted component. *)
Inductive Event :=
| InitialPageArrives (d : Page)   (* the first-page query (re)fetched [d] *)
| MorePageArrives (d : Page)      (* a response reaches the load-more observer *)
| MoreFetchFails                  (* the load-more query ends in an error *)
| LoadMore                        (* the scroll sentinel calls [loadMore()] *)
| RefreshClicked
| RefreshResolved (result : option Page)
| IdChanged.                      (* the route's webhook id changed *)

(** The handler part of an event.  The refresh button is disabled while
    [isRefreshing]; the continuation of [onClick] exists only after a click,
    and the data that [refetchExecutions()] resolved with are from then on
    what the first-page observer returns.  A new webhook id is a new key for
    both queries, whose data are undefined again, and fires the reset
    effect. *)
Definition handle (e : Event) (s : State) : State :=
  match e with
  | InitialPageArrives d => s ▷ withExecutionsData (Some d)
  | MorePageArrives d => s ▷ withMoreQuery (Some d) false
  | MoreFetchFails => s ▷ withMoreQuery None false
  | LoadMore => loadMore s
  | RefreshClicked => if isRefreshing s then s else refreshStart s
  | RefreshResolved result =>
      if isRefreshing s then
        s ▷ withExecutionsData (from_option Some (executionsData s) result)
          ▷ refreshFinish result
      else s
  | IdChanged => s ▷ withExecutionsData None ▷ withMoreQuery None false ▷ resetEffect
  end.

(** The load-more observer after a handler: when the query key
    [loadMoreOffset] has changed, the observer follows the new key, whose
    data is undefined until a response arrives (a response held in the
    query cache is a [MorePageArrives] that follows at once), and the query
    is loading exactly when it is enabled. *)
Definition observeMoreQuery (before : option nat) (s : State) : State :=
  if bool_decide (loadMoreOffset s = before) then s
  else s ▷ withMoreQuery None (bool_decide (0 < currentOffset s)).

Definition initDepsOf (s : State) : InitDeps :=
  (executionsData s, currentOffset s, length (loadedExecutions s), isRefreshing s).

Definition appendDepsOf (s : State) : AppendDeps :=
  (moreExecutionsData s, currentOffset s).

(** The content effects that a commit runs: those whose dependency array
    differs from the one of the last commit.  The initialisation effect
    writes only at offset 0 and the append effect only above it, so running
    one after the other equals running both on the same render. *)
Definition bodies (s : State) : State :=
  let s1 := if bool_decide (initDeps s = initDepsOf s) then s else initEffect s in
  if bool_decide (appendDeps s = appendDepsOf s) then s1 else appendEffect s1.

(** One commit: the effects in the order of their declaration, then the
    dependency arrays of this render are kept. *)
Definition effects (s : State) : State :=
  s ▷ syncRefs
    ▷ (λ s', if bool_decide (initDeps s = initDepsOf s) then s' else initEffect s')
    ▷ (λ s', if bool_decide (appendDeps s = appendDepsOf s) then s' else appendEffect s')
    ▷ setDeps (initDepsOf s) (appendDepsOf s).

(** Rendering until nothing changes any more: the second commit mirrors in
    the refs and dependency arrays what the first one wrote, and a third
    would change nothing ([effects_settled]). *)
Definition settle (s : State) : State := effects (effects s).

Definition step (e : Event) (s : State) : State :=
  settle (observeMoreQuery (loadMoreOffset s) (handle e s)).

(** Events in chronological order, from the state [s]. *)
Fixpoint runFrom (s : State) (trace : list Event) : State :=
  match trace with
  | [] => s
  | e :: trace' => runFrom (step e s) trace'
  end.

Definition run (trace : list Event) : State := runFrom initial trace.

(** *** Bookkeeping over traces, for the statements about the cursor *)

(** Page fetches completed since the list was last reset. *)
Definition completedFetches (trace : list Event) : nat :=
  foldl (λ n e,
           match e with
           | InitialPageArrives _ | MorePageArrives _ => S n
           | RefreshClicked | IdChanged => 0
           | LoadMore | MoreFetchFails | RefreshResolved _ => n
           end) 0 trace.

(** Calls of [loadMore] that passed its guard since the list was last
    reset, counted along the run from [s]; [n] is the count so far. *)
Fixpoint acceptedLoadMores (s : State) (n : nat) (trace : list Event) : nat :=
  match trace with
  | [] => n
  | e :: trace' =>
      let n' :=
        match e with
        | LoadMore => if loadMoreAllowed s then S n else n
        | RefreshClicked => if isRefreshing s then n else 0
        | IdChanged => 0
        | InitialPageArrives _ | MorePageArrives _ | MoreFetchFails
        | RefreshResolved _ => n
        end in
      acceptedLoadMores (step e s) n' trace'
  end.



(** The fields of the state that the list view shows. *)
Definition view (s : State)
  : list JobExecution * nat * nat * bool * bool :=
  (loadedExecutions s, totalExecutions s, currentOffset s, hasMore s,
   isLoadingMore s).

(** The refs hold what the state holds. *)
Definition refsInSync (s : State) : Prop :=
  hasMoreRef s = hasMore s ∧ isLoadingMoreRef s = isLoadingMore s ∧
  isLoadingMoreExecutionsRef s = isLoadingMoreExecutions s.

(** Refs and dependency arrays brought up to date with the cells. *)
Definition rest (s : State) : State :=
  s ▷ syncRefs ▷ setDeps (initDepsOf s) (appendDepsOf s).

(** A state between two events: nothing is left for a commit to do. *)
Definition atRest (s : State) : Prop := rest s = s.

(** The ids of a list of records, in order. *)
Definition ids (l : list JobExecution) : list string := id <$> l.

(** A response of the store lists each execution once. *)
Definition distinctPage (d : Page) : Prop := NoDup (ids (data d)).

Definition distinctEvent (e : Event) : Prop :=
  match e with
  | InitialPageArrives d | MorePageArrives d | RefreshResolved (Some d) =>
      distinctPage d
  | _ => True
  end.

(** What the append effect writes when it fires; the branch for an empty
    page is the instance [data d = []]. *)
Definition appended (d : Page) (s : State) : State :=
  s ▷ setLoadedExecutions (appendNew (data d) (loadedExecutions s))
    ▷ setHasMore (bool_decide (length (data d) = 20))
    ▷ setIsLoadingMore false.

(** The list shows each execution once, and so do the pages that the two
    observers hold. *)
Definition distinctState (s : State) : Prop :=
  NoDup (ids (loadedExecutions s)) ∧
  (∀ d, executionsData s = Some d → distinctPage d) ∧
  (∀ d, moreExecutionsData s = Some d → distinctPage d).

(** Two states that differ at most in what the load-more observer returns,
    in the ref that mirrors its [isLoading] and in the dependency array of
    the append effect. *)
Definition sameButMoreQuery (s t : State) : Prop :=
  loadedExecutions s = loadedExecutions t ∧
  totalExecutions s = totalExecutions t ∧
  currentOffset s = currentOffset t ∧
  hasMore s = hasMore t ∧
  isLoadingMore s = isLoadingMore t ∧
  isRefreshing s = isRefreshing t ∧
  hasMoreRef s = hasMoreRef t ∧
  isLoadingMoreRef s = isLoadingMoreRef t ∧
  executionsData s = executionsData t ∧
  initDeps s = initDeps t.

(** Sample data: the execution numbered [n] of a job whose calls all
    succeeded, and the page of [count] executions from number [from]. *)
Definition sampleExecution (n : nat) : JobExecution :=
  {| id := "exec-" +:+ pretty n; status := "success";
     created_at := Z.of_nat n; response_code := Some 200%Z;
     duration_ms := Some 35%Z; attempt := Some 1%Z; error := None |}.

Definition samplePage (from count : nat) : Page :=
  {| data := sampleExecution <$> seq from count; meta_total := 45 |}.

End Loader.

(** ** [hooks/use-job-executions.ts] *)
Module JobExecutionsHook.

(** The GET request that [queryFn] sends. *)
Record Request := {
  url : string;
  param_limit : nat;
  param_offset : nat;
}.

(** The options that [useJobExecutions] hands to [useQuery].  [queryFn] is
    what running the query function does: the request it sends, or the
    message of the error it throws. *)
Record QueryOptions := {
  queryKey : string * option string * nat * option nat;
  queryFn : string + Request;
  enabled : bool;
}.

(** [!!webhookId]: [undefined] and the empty string are falsy. *)
Definition truthy (webhookId : option string) : bool :=
  match webhookId with
  | Some "" | None => false
  | Some _ => true
  end.

(** [useJobExecutions(webhookId, limit = 20, offset = 0)].  An argument that
    is left out or [undefined] ([None]) takes the default value of its
    parameter before the body runs. *)
Definition useJobExecutions
    (webhookId : option string) (limit offset : option nat) : QueryOptions :=
  let limit : nat := default 20 limit in
  let offset : option nat := Some (default 0 offset) in
  {| queryKey := ("job-executions", webhookId, limit, offset);
     queryFn :=
       if negb (truthy webhookId) then inl "Webhook ID is required"
       else inr {| url := "/api/schedules/" +:+ default "" webhookId
                          +:+ "/executions";
                   param_limit := limit;
                   (* [offset ?? 0] *)
                   param_offset := default 0 offset |};
     enabled := truthy webhookId && bool_decide (offset ≠ None) |}.

(** The calls of the paginated page, [useJobExecutions(id, 20, 0)] and
    [useJobExecutions(id, 20, loadMoreOffset)], and the call of the older
    page, [useJobExecutions(id)]. *)
Definition firstPageQuery (id : option string) : QueryOptions :=
  useJobExecutions id (Some 20) (Some 0).

Definition loadMoreQuery (id : option string) (s : Loader.State) : QueryOptions :=
  useJobExecutions id (Some 20) (Loader.loadMoreOffset s).

Definition legacyQuery (id : option string) : QueryOptions :=
  useJobExecutions id None None.

End JobExecutionsHook.

(** ** The form of the notifications page ([NotificationsPage]) *)
Module Notifications.

Inductive NotificationType := Email | Slack | Discord | Webhook.

Global Instance NotificationType_eq_dec : EqDecision NotificationType.
Proof. solve_decision. Defined.

(** The [config] object of a notification and of a request; each key is
    optional. *)
Record Config := {
  cfg_email : option string;
  cfg_webhook_url : option string;
  cfg_channel : option string;
}.

(** The fields of [Notification] that the form reads. *)
Record Notification := {
  id : string;
  type : NotificationType;
  name : string;
  enabled : bool;
  config : Config;
}.

(** The state cell [newChannelConfig]. *)
Record FormConfig := {
  email : string;
  webhook_url : string;
  channel : string;
}.

(** The [useState] cells of the dialog. *)
Record Form := {
  isDialogOpen : bool;
  editingNotificationId : option string;
  newChannelType : NotificationType;
  newChannelName : string;
  newChannelConfig : FormConfig;
}.

Definition setIsDialogOpen (v : bool) (f : Form) : Form :=
  {| isDialogOpen := v; editingNotificationId := editingNotificationId f;
     newChannelType := newChannelType f; newChannelName := newChannelName f;
     newChannelConfig := newChannelConfig f |}.

Definition resetForm (f : Form) : Form :=
  {| isDialogOpen := isDialogOpen f;
     editingNotificationId := None;
     newChannelType := Email;
     newChannelName := "";
     newChannelConfig := {| email := ""; webhook_url := ""; channel := "" |} |}.

Definition handleEditChannel (notification : Notification) (f : Form) : Form :=
  {| isDialogOpen := true;
     editingNotificationId := Some (id notification);
     newChannelType := type notification;
     newChannelName := name notification;
     newChannelConfig :=
       {| email := Js.or_else (cfg_email (config notification)) "";
          webhook_url := Js.or_else (cfg_webhook_url (config notification)) "";
          channel := Js.or_else (cfg_channel (config notification)) "" |} |}.

(** What [handleAddChannel] does before its first [await]: it shows an
    error toast and returns, or calls one of the two mutations. *)
Inductive Submission :=
| Rejected (message : string)
| Update (notificationId : string) (name : string) (config : Config)
| Create (type : NotificationType) (name : string) (enabled : bool)
         (config : Config).

Definition handleAddChannel (f : Form) : Submission :=
  if bool_decide (Js.trim (newChannelName f) = "") then
    Rejected "Please enter a channel name"
  else
    let missing : option string :=
      if bool_decide (newChannelType f = Email) then
        if bool_decide (email (newChannelConfig f) = "")
        then Some "Please enter an email address" else None
      else
        if bool_decide (webhook_url (newChannelConfig f) = "")
        then Some "Please enter a webhook URL" else None in
    match missing with
    | Some message => Rejected message
    | None =>
        let config :=
          if bool_decide (newChannelType f = Email) then
            {| cfg_email := Some (email (newChannelConfig f));
               cfg_webhook_url := None; cfg_channel := None |}
          else
            {| cfg_email := None;
               cfg_webhook_url := Some (webhook_url (newChannelConfig f));
               cfg_channel := None |} in
        match editingNotificationId f with
        | Some "" | None =>
            Create (newChannelType f) (newChannelName f) true config
        | Some notificationId =>
            Update notificationId (newChannelName f) config
        end
    end.

(** The form once the mutation has succeeded. *)
Definition submitted (f : Form) : Form := resetForm (setIsDialogOpen false f).

(** A request that carries a name that is not blank and, as its
    configuration, exactly the address of the given channel type. *)
Definition wellFormed (type : NotificationType) (name : string) (config : Config)
  : Prop :=
  Js.trim name ≠ "" ∧ cfg_channel config = None ∧
  if bool_decide (type = Email)
  then (∃ a, a ≠ "" ∧ cfg_email config = Some a) ∧ cfg_webhook_url config = None
  else (∃ u, u ≠ "" ∧ cfg_webhook_url config = Some u) ∧ cfg_email config = None.

(** Sample data: a Slack channel as the server returns it. *)
Definition sampleNotification : Notification :=
  {| id := "n-1"; type := Slack; name := "Ops alerts"; enabled := true;
     config := {| cfg_email := None;
                  cfg_webhook_url := Some "https://hooks.example/T1";
                  cfg_channel := Some "#ops" |} |}.

Definition emptyForm : Form :=
  {| isDialogOpen := false; editingNotificationId := None;
     newChannelType := Email; newChannelName := "";
     newChannelConfig := {| email := ""; webhook_url := ""; channel := "" |} |}.

End Notifications.

(** ** The authentication store ([stores/auth-store], [unnamed/part_000]) *)
Module AuthStore.

(** [User]: the store only tests it for [null]. *)
Record User := {
  user_id : string;
  user_email : string;
}.

Record AuthStoreState := {
  user : option User;
  accessToken : option string;
  refreshToken : option string;
  isAuthenticated : bool;
}.

Definition initialState : AuthStoreState :=
  {| user := None; accessToken := None; refreshToken := None;
     isAuthenticated := false |}.

(** Each action is [set] with a partial state: the keys it names are
    replaced, the others kept. *)
Definition setUser (u : option User) (s : AuthStoreState) : AuthStoreState :=
  {| user := u; accessToken := accessToken s; refreshToken := refreshToken s;
     isAuthenticated := bool_decide (u ≠ None) |}.

Definition setTokens (access refresh : string) (s : AuthStoreState)
  : AuthStoreState :=
  {| user := user s; accessToken := Some access; refreshToken := Some refresh;
     isAuthenticated := true |}.

Definition clearAuth (s : AuthStoreState) : AuthStoreState :=
  {| user := None; accessToken := None; refreshToken := None;
     isAuthenticated := false |}.

Definition logout (s : AuthStoreState) : AuthStoreState :=
  {| user := None; accessToken := None; refreshToken := None;
     isAuthenticated := false |}.

Inductive Action :=
| SetUser (u : option User)
| SetTokens (access refresh : string)
| ClearAuth
| Logout.

Definition dispatch (s : AuthStoreState) (a : Action) : AuthStoreState :=
  match a with
  | SetUser u => setUser u s
  | SetTokens access refresh => setTokens access refresh s
  | ClearAuth => clearAuth s
  | Logout => logout s
  end.

(** The store after the actions of [trace], in order, from the initial
    state. *)
Definition after (trace : list Action) : AuthStoreState :=
  foldl dispatch initialState trace.

(** [onSuccess] of [useDeleteCurrentAccount] ([unnamed/part_001]): the store
    is cleared, then the browser is sent to the login page. *)
Definition onAccountDeleted (s : AuthStoreState) : AuthStoreState * string :=
  (clearAuth s, "/login").

End AuthStore.

(** * Properties *)

(** ** Splitting a trimmed string yields its white-space separated tokens *)
Section Tokens.

Local Open Scope string_scope.

Lemma append_cons (a : Ascii.ascii) (s t : string) :
  String a s +:+ t = String a (s +:+ t).
Proof. reflexivity. Qed.

Lemma append_snoc (s : string) (a : Ascii.ascii) (t : string) :
  (s +:+ String a "") +:+ t = s +:+ String a t.
Proof.
  induction s as [|b s IH]; [reflexivity|].
  by rewrite !append_cons, IH.
Qed.

Lemma rev_app_append (r acc : string) :
  String.rev_app r acc = String.rev_app r "" +:+ acc.
Proof.
  revert acc. induction r as [|a r IH]; intros acc; simpl; [done|].
  by rewrite (IH (String a acc)), (IH (String a "")), append_snoc.
Qed.

Lemma rev_cons (a : Ascii.ascii) (r : string) :
  String.rev (String a r) = String.rev r +:+ String a "".
Proof. unfold String.rev. simpl. apply rev_app_append. Qed.

Lemma words_trimStart (s : string) :
  String.words (Js.trimStart s) = String.words s.
Proof.
  unfold String.words. induction s as [|a s IH]; simpl; [done|].
  destruct (Ascii.is_space a) eqn:Ha; simpl; [done|]. by rewrite Ha.
Qed.

Lemma words_go_trimEnd (s : string) (cur : option string) :
  String.words_go cur (Js.trimEnd s) = String.words_go cur s.
Proof.
  revert cur. induction s as [|a s IH]; intros cur; simpl; [done|].
  destruct (Js.trimEnd s) as [|b t] eqn:Ht.
  - destruct (Ascii.is_space a) eqn:Ha; simpl.
    + rewrite <- IH. simpl. by rewrite app_nil_r.
    + rewrite Ha. by rewrite <- IH.
  - simpl (String.words_go cur (String a (String b t))).
    destruct (Ascii.is_space a); by rewrite <- IH.
Qed.

Lemma words_trim (s : string) : String.words (Js.trim s) = String.words s.
Proof.
  unfold Js.trim, String.words. by rewrite words_go_trimEnd, words_trimStart.
Qed.

Lemma endsClean_trimEnd (s : string) : Js.endsClean (Js.trimEnd s) = true.
Proof.
  induction s as [|a s IH]; simpl; [done|].
  destruct (Js.trimEnd s) as [|b t] eqn:Ht.
  - destruct (Ascii.is_space a) eqn:Ha; simpl; [done|]. by rewrite Ha.
  - exact IH.
Qed.

Lemma trimStart_head (s : string) :
  match Js.trimStart s with
  | "" => True
  | String a _ => Ascii.is_space a = false
  end.
Proof.
  induction s as [|a s IH]; simpl; [done|].
  destruct (Ascii.is_space a) eqn:Ha; [exact IH | exact Ha].
Qed.

Lemma trimEnd_head (s : string) (a : Ascii.ascii) (s' : string) :
  s = String a s' → Ascii.is_space a = false →
  ∃ t, Js.trimEnd s = String a t.
Proof.
  intros -> Ha. simpl. destruct (Js.trimEnd s'); [rewrite Ha|]; eauto.
Qed.

(** Inside a piece, and right after a separator, the splitter and
    [String.words_go] agree on strings that do not end in white space. *)
Lemma split_go_words (s : string) :
  Js.endsClean s = true →
  (∀ cur r, String.rev r = cur →
     Js.split_ws_go false cur s = String.words_go (Some r) s) ∧
  (s ≠ "" → Js.split_ws_go true "" s = String.words_go None s).
Proof.
  induction s as [|a s IH]; intros Hend.
  - split; [|done]. intros cur r <-. done.
  - assert (Hs : s = "" ∧ Ascii.is_space a = false ∨ s ≠ "" ∧ Js.endsClean s = true).
    { destruct s as [|b s]; [left|right]; simpl in Hend.
      - split; [done|]. by destruct (Ascii.is_space a).
      - done. }
    split.
    + intros cur r <-. simpl.
      destruct (Ascii.is_space a) eqn:Ha.
      * destruct Hs as [[_ ?]|[Hne Hc]]; [congruence|].
        destruct (IH Hc) as [_ IH2]. by rewrite (IH2 Hne).
      * assert (Hc : Js.endsClean s = true) by (destruct Hs as [[-> _]|[_ ?]]; done).
        destruct (IH Hc) as [IH1 _]. apply IH1. apply rev_cons.
    + intros _. simpl. destruct (Ascii.is_space a) eqn:Ha.
      * destruct Hs as [[_ ?]|[Hne Hc]]; [congruence|].
        destruct (IH Hc) as [_ IH2]. by apply IH2.
      * assert (Hc : Js.endsClean s = true) by (destruct Hs as [[-> _]|[_ ?]]; done).
        destruct (IH Hc) as [IH1 _]. by apply IH1.
Qed.

(** [cron.trim().split(/\s+/)] is the list of the tokens of [cron], or one
    empty piece when there is none. *)
Lemma split_trim_words (s : string) :
  Js.split_ws (Js.trim s) =
  match String.words s with [] => [""] | ws => ws end.
Proof.
  rewrite <- (words_trim s). unfold Js.trim.
  pose proof (trimStart_head s) as Hhead.
  destruct (Js.trimStart s) as [|a s'] eqn:Hs; [done|].
  destruct (trimEnd_head _ a s' eq_refl Hhead) as [t Ht].
  pose proof (endsClean_trimEnd (String a s')) as Hend.
  rewrite Ht in *.
  assert (Hc : Js.endsClean t = true).
  { destruct t; [done|]. exact Hend. }
  unfold Js.split_ws, String.words. simpl. rewrite Hhead.
  destruct (split_go_words t Hc) as [H1 _].
  change ("" +:+ String a "") with (String a "").
  rewrite (H1 (String a "") (String a "") eq_refl).
  destruct (String.words_go (Some (String a "")) t) eqn:Hw; [|done].
  exfalso. clear -Hw. revert Hw. generalize (String a "") as r.
  induction t as [|b t IH]; intros r; simpl; [done|].
  destruct (Ascii.is_space b); simpl; [done|]. apply IH.
Qed.

Lemma split_trim_length (s : string) :
  length (Js.split_ws (Js.trim s)) = length (String.words s) `max` 1.
Proof.
  rewrite split_trim_words. destruct (String.words s); simpl; lia.
Qed.

End Tokens.

(** ** The cron utility *)
Section CronProperties.

Import Cron.

Lemma append_nil_r (s : string) : s +:+ "" = s.
Proof. induction s as [|a s IH]; [done|]. by rewrite append_cons, IH. Qed.




Context `{CronEnv}.


Lemma description_of_valid (cron : string) (now : Instant) :
  v_isValid (validateCronExpression cron) = true →
  description (describeCronExpression cron now) =
  default "Valid cron expression"
          (describeParts cron (Js.split_ws (Js.trim cron))).
Proof. intros Hv. unfold describeCronExpression. by rewrite Hv. Qed.




(** *** Token count *)

Lemma parse_rejects (cron : string) :
  length (String.words cron) ≠ 5 → length (String.words cron) ≠ 6 →
  parseCronExpression cron =
  {| fields := None; parse_error := Some field_count_message |}.
Proof.
  intros H5 H6. unfold parseCronExpression. rewrite split_trim_words.
  destruct (String.words cron) as [|a [|b [|c [|d [|e [|f [|g l]]]]]]];
    simpl in *; done.
Qed.

(** C9, as amended. When the token count of the input is neither 5 nor 6,
    [parseCronExpression] returns no fields and an error message that names
    "5 fields" and "6 fields".  [validateCronExpression] makes no count
    check of its own: it calls the cron parser without the seconds option
    and returns, as data, success when the parser returns and otherwise
    the parser's message (or "Invalid cron expression" when it has
    none). *)
Theorem C9_field_count (cron : string) :
  length (String.words cron) ≠ 5 → length (String.words cron) ≠ 6 →
  (fields (parseCronExpression cron) = None ∧
   ∃ msg, parse_error (parseCronExpression cron) = Some msg ∧
          Js.includes "5 fields" msg = true ∧
          Js.includes "6 fields" msg = true) ∧
  validateCronExpression cron =
    match CronExpressionParser_parse cron None false with
    | inl _ => {| v_isValid := true; v_error := None |}
    | inr message =>
        {| v_isValid := false;
           v_error := Some (Js.or_else message "Invalid cron expression") |}
    end.
Proof.
  intros H5 H6. split.
  - rewrite (parse_rejects _ H5 H6). simpl. split; [done|].
    exists field_count_message. by vm_compute.
  - unfold validateCronExpression. rewrite split_trim_length.
    rewrite bool_decide_eq_false_2 by lia. done.
Qed.

(** *** Next runs *)

Lemma nextDates_length (fuel : nat) (it : Interval) :
  length (nextDates fuel it) ≤ fuel.
Proof.
  revert it. induction fuel as [|fuel IH]; intros it; simpl; [lia|].
  destruct (interval_next it) as [[t it']|]; simpl; [|lia].
  specialize (IH it'). lia.
Qed.

Lemma nextDates_increasing (cursor : Interval → Instant) (fuel : nat) :
  calculatorContract cursor → ∀ it,
  StronglySorted Z.lt (nextDates fuel it) ∧
  Forall (λ t, cursor it < t)%Z (nextDates fuel it).
Proof.
  intros [_ Hnext]. induction fuel as [|fuel IH]; intros it; simpl.
  { split; constructor. }
  destruct (interval_next it) as [[t it']|] eqn:Hn; [|split; constructor].
  destruct (Hnext _ _ _ Hn) as [Hlt Hcur].
  destruct (IH it') as [Hsorted Hall]. rewrite Hcur in Hall.
  split.
  - by constructor.
  - constructor; [done|]. eapply Forall_impl; [exact Hall|].
    intros u Hu. simpl in Hu. lia.
Qed.

Lemma nextDates_yields (it : Interval) (ts : list Instant) (it' : Interval) :
  yields it ts it' → ∀ fuel,
  length ts = fuel ∨ (length ts < fuel ∧ interval_next it' = None) →
  nextDates fuel it = ts.
Proof.
  induction 1 as [it|it t it1 ts it2 Hn _ IH]; intros fuel Hfuel.
  - destruct fuel as [|fuel]; [done|]. simpl.
    destruct Hfuel as [?|[_ ->]]; done.
  - destruct fuel as [|fuel]; simpl in *; [destruct Hfuel as [?|[? _]]; lia|].
    rewrite Hn. f_equal. apply IH.
    destruct Hfuel as [?|[? ?]]; [left; lia | right; split; [lia|done]].
Qed.

(** C8. Provided the occurrence calculator honours its contract, the
    dates projected from any expression and any reference instant [now]
    are at most 5, strictly increasing and all later than [now];
    [generateNextRuns] returns exactly their formatted forms; and when the
    calculator has produced [ts] and then gives up before the fifth date,
    the result is [ts], without an error. *)
Theorem C8_next_runs (cursor : Interval → Instant)
    (cron : string) (hasSeconds : bool) (now : Instant) :
  calculatorContract cursor →
  let runs := projectRuns cron hasSeconds now in
  length runs ≤ 5 ∧
  StronglySorted Z.lt runs ∧
  Forall (λ t, now < t)%Z runs ∧
  generateNextRuns cron hasSeconds now = formatRun now <$> runs ∧
  (∀ it ts it',
     CronExpressionParser_parse cron (Some now) hasSeconds = inl it →
     yields it ts it' →
     length ts = 5 ∨ (length ts < 5 ∧ interval_next it' = None) →
     runs = ts).
Proof.
  intros Hc runs. subst runs. unfold projectRuns.
  destruct (CronExpressionParser_parse cron (Some now) hasSeconds)
    as [it|msg] eqn:Hp.
  - destruct (nextDates_increasing cursor 5 Hc it) as [Hsorted Hall].
    destruct Hc as [Hparse _]. rewrite (Hparse _ _ _ _ Hp) in Hall.
    split; [apply nextDates_length|].
    do 2 (split; [done|]).
    split; [unfold generateNextRuns, projectRuns; by rewrite Hp|].
    intros it0 ts it' [= <-] Hy Hlen. by apply nextDates_yields with it'.
  - split; [simpl; lia|].
    do 2 (split; [constructor|]).
    split; [unfold generateNextRuns, projectRuns; by rewrite Hp|done].
Qed.

End CronProperties.

Lemma sampleEnv_contract : @Cron.calculatorContract Cron.sampleEnv fst.
Proof.
  split.
  - intros cron now seconds it. simpl. case_bool_decide; [done|].
    by intros [= <-].
  - intros [t n] u it'. simpl. destruct n as [|k]; [done|].
    intros [= <- <-]. simpl. lia.
Qed.


Lemma C8_next_runs_witness :
  @Cron.projectRuns Cron.sampleEnv "* * * * *" false 1000%Z = [61000; 121000; 181000]%Z ∧
  StronglySorted Z.lt (@Cron.projectRuns Cron.sampleEnv "* * * * *" false 1000%Z).
Proof.
  split; [reflexivity|].
  exact (proj1 (proj2
    (@C8_next_runs Cron.sampleEnv fst "* * * * *" false 1000%Z sampleEnv_contract))).
Defined.

Lemma C9_field_count_witness :
  Cron.fields (Cron.parseCronExpression "0 12 * *") = None.
Proof.
  refine (proj1 (proj1 (@C9_field_count Cron.sampleEnv "0 12 * *" _ _)));
    vm_compute; intros [=].
Defined.

(** *** The describer on sample expressions *)

Example parse_five_fields :
  Cron.fields (Cron.parseCronExpression "  */5 *  * * 1-5 ") =
  Some {| Cron.second := None; Cron.minute := "*/5"; Cron.hour := "*";
          Cron.dayOfMonth := "*"; Cron.month := "*"; Cron.dayOfWeek := "1-5" |}.
Proof. reflexivity. Qed.

Example describe_every_second :
  Cron.description (@Cron.describeCronExpression Cron.sampleEnv "* * * * * *" 0%Z)
    = "Every second".
Proof. reflexivity. Qed.

Example describe_second_zero :
  Cron.description (@Cron.describeCronExpression Cron.sampleEnv "0 0 9 * * 1" 0%Z)
    = "At 09:00 AM, only on Monday".
Proof. reflexivity. Qed.

Example describe_literal_second :
  Cron.description (@Cron.describeCronExpression Cron.sampleEnv "30 * * * * *" 0%Z)
    = "Every minute at second 30".
Proof. reflexivity. Qed.

Example describe_step_with_suffix :
  Cron.description (@Cron.describeCronExpression Cron.sampleEnv "*/1 0 9 * * 1" 0%Z)
    = "Every 1 second, at 09:00 am, only on monday".
Proof. reflexivity. Qed.

Example describe_unrendered :
  Cron.description (@Cron.describeCronExpression Cron.sampleEnv "15 0 0 1 1 *" 0%Z)
    = "Valid cron expression".
Proof. reflexivity. Qed.

Example describe_rejected :
  @Cron.describeCronExpression Cron.sampleEnv "1 2 3 4 5 6 7" 0%Z =
  {| Cron.description := ""; Cron.nextRuns := []; Cron.isValid := false;
     Cron.error := Some "Invalid cron expression, too many fields" |}.
Proof. reflexivity. Qed.

Example next_runs_formatted :
  @Cron.generateNextRuns Cron.sampleEnv "* * * * *" false 1000%Z
    = ["this year"; "this year"; "this year"].
Proof. reflexivity. Qed.

(** The claim of C9 about [validateCronExpression] does not follow from the
    page's code: with a parser that fills in missing fields and reports
    surplus ones in its own words, three tokens validate and seven fail with
    a message that names neither "5 fields" nor "6 fields". *)
Lemma C9_validate_counterexample :
  length (String.words "* * *") = 3 ∧
  @Cron.validateCronExpression Cron.sampleEnv "* * *"
    = {| Cron.v_isValid := true; Cron.v_error := None |} ∧
  length (String.words "1 2 3 4 5 6 7") = 7 ∧
  @Cron.validateCronExpression Cron.sampleEnv "1 2 3 4 5 6 7"
    = {| Cron.v_isValid := false;
         Cron.v_error := Some "Invalid cron expression, too many fields" |} ∧
  Js.includes "5 fields" "Invalid cron expression, too many fields" = false ∧
  Js.includes "6 fields" "Invalid cron expression, too many fields" = false.
Proof. repeat split. Qed.

(** ** Display of execution records *)
Section DisplayProperties.

(** The three code classes as intervals. *)
Lemma is2xx_spec (c : Z) : is2xx c = true ↔ (200 ≤ c < 300)%Z.
Proof.
  unfold is2xx. rewrite andb_true_iff, !bool_decide_eq_true. lia.
Qed.

Lemma is4xx_spec (c : Z) : is4xx c = true ↔ (400 ≤ c < 500)%Z.
Proof.
  unfold is4xx. rewrite andb_true_iff, !bool_decide_eq_true. lia.
Qed.

Lemma is2xx_false (c : Z) : is2xx c = false ↔ ¬ (200 ≤ c < 300)%Z.
Proof. rewrite <- is2xx_spec. by destruct (is2xx c). Qed.

Lemma is4xx_false (c : Z) : is4xx c = false ↔ ¬ (400 ≤ c < 500)%Z.
Proof. rewrite <- is4xx_spec. by destruct (is4xx c). Qed.

(** The style that the code alone selects. *)
Lemma legacy_style_by_code (status : string) (c : Z) :
  ((200 ≤ c < 300)%Z → style (Legacy.getStatusBadge status c) = SuccessStyle) ∧
  ((400 ≤ c < 500)%Z → style (Legacy.getStatusBadge status c) = ClientErrorStyle) ∧
  (¬ (200 ≤ c < 300)%Z → ¬ (400 ≤ c < 500)%Z →
     style (Legacy.getStatusBadge status c) = FailureStyle).
Proof.
  unfold Legacy.getStatusBadge. repeat split.
  - intros Hc. by rewrite (proj2 (is2xx_spec c) Hc).
  - intros Hc. rewrite (proj2 (is2xx_false c)) by lia.
    by rewrite (proj2 (is4xx_spec c) Hc).
  - intros H2 H4. by rewrite (proj2 (is2xx_false c) H2), (proj2 (is4xx_false c) H4).
Qed.

Lemma details_style_by_code (status : string) (c : Z) :
  status ≠ "queued" → status ≠ "running" → status ≠ "timeout" →
  style (Details.getStatusBadge status c) = style (Legacy.getStatusBadge status c).
Proof.
  intros Hq Hr Ht. unfold Details.getStatusBadge, Legacy.getStatusBadge.
  rewrite !bool_decide_eq_false_2 by done.
  destruct (is2xx c); [done|]. by destruct (is4xx c).
Qed.

(** The display status is one of the three status-first classes exactly
    for the wire statuses [queued], [running] and [timed_out]. *)
Lemma display_status_cases (e : JobExecution) :
  let x := Details.x_status (Details.transformExecution e) in
  (x = "queued" ↔ status e = "queued") ∧
  (x = "running" ↔ status e = "running") ∧
  (x = "timeout" ↔ status e = "timed_out").
Proof.
  simpl. repeat case_bool_decide; repeat split; intros; congruence.
Qed.

(** C6, as amended. The badge of a row of the paginated page is chosen by
    status first: executions that are queued, running or timed out get a
    style of their own whatever their code.  For every other stored status
    the style is determined by the derived code alone: [200,300) is
    success-styled, [400,500) client-error-styled, and everything else
    (the 0 that stands for an absent code included) failure-styled.  On the
    page without pagination the code alone decides for every status. *)
Theorem C6_badge_style (e : JobExecution) :
  let x := Details.transformExecution e in
  let c := Details.statusCode x in
  (status e = "queued" → style (Details.badgeOf x) = QueuedStyle) ∧
  (status e = "running" → style (Details.badgeOf x) = RunningStyle) ∧
  (status e = "timed_out" → style (Details.badgeOf x) = TimeoutStyle) ∧
  (status e ≠ "queued" → status e ≠ "running" → status e ≠ "timed_out" →
     ((200 ≤ c < 300)%Z → style (Details.badgeOf x) = SuccessStyle) ∧
     ((400 ≤ c < 500)%Z → style (Details.badgeOf x) = ClientErrorStyle) ∧
     (¬ (200 ≤ c < 300)%Z → ¬ (400 ≤ c < 500)%Z →
        style (Details.badgeOf x) = FailureStyle)) ∧
  (∀ status,
     let y := Legacy.getStatusBadge status c in
     ((200 ≤ c < 300)%Z → style y = SuccessStyle) ∧
     ((400 ≤ c < 500)%Z → style y = ClientErrorStyle) ∧
     (¬ (200 ≤ c < 300)%Z → ¬ (400 ≤ c < 500)%Z → style y = FailureStyle)).
Proof.
  intros x c.
  destruct (display_status_cases e) as (Hq & Hr & Ht). fold x in Hq, Hr, Ht.
  unfold Details.badgeOf. fold c.
  split; [|split; [|split; [|split]]].
  - intros He. apply Hq in He. by rewrite He.
  - intros He. apply Hr in He. by rewrite He.
  - intros He. apply Ht in He. by rewrite He.
  - intros Nq Nr Nt.
    rewrite (details_style_by_code (Details.x_status x) c)
      by (rewrite ?Hq, ?Hr, ?Ht; done).
    apply legacy_style_by_code.
  - intros st. apply legacy_style_by_code.
Qed.

(** The claim of C6 fails on a queued execution without a response code:
    its code is neither 2xx nor 4xx, yet its badge is not failure-styled;
    and a queued execution with code 200 is not success-styled. *)
Lemma C6_counterexample :
  let x := Details.transformExecution queuedExecution in
  Details.statusCode x = 0%Z ∧
  style (Details.badgeOf x) = QueuedStyle ∧
  style (Details.badgeOf x) ≠ FailureStyle ∧
  style (Details.getStatusBadge "queued" 200) ≠ SuccessStyle.
Proof. by repeat split. Qed.

End DisplayProperties.

Section StatisticsProperties.

Context `{JsNumber}.

Lemma filter_transform_length (l : list JobExecution) :
  length (filter (λ x, is2xx (Details.statusCode x) = true)
                 (Details.transformExecution <$> l)) =
  length (successfulBy deriveStatusCode l).
Proof.
  unfold successfulBy. induction l as [|r l IH]; [done|].
  rewrite fmap_cons, !filter_cons. simpl (Details.statusCode _).
  destruct (decide (is2xx (deriveStatusCode r) = true)); simpl; by rewrite IH.
Qed.

Lemma executions_length (l : list JobExecution) :
  length (Details.executions l) = length l.
Proof.
  unfold Details.executions. case_bool_decide as Hl.
  - by destruct l.
  - by rewrite merge_sort_Permutation, length_fmap.
Qed.

(** The success count is taken from the derived codes; sorting and the
    display status play no part in it. *)
Lemma success_by_code (l : list JobExecution) :
  Details.success (Details.summaryStats (Details.executions l)) =
  length (successfulBy deriveStatusCode l).
Proof.
  unfold Details.summaryStats. simpl. unfold Details.executions.
  case_bool_decide as Hl.
  - by destruct l.
  - rewrite merge_sort_Permutation. apply filter_transform_length.
Qed.

Lemma success_le_total (l : list JobExecution) :
  length (successfulBy deriveStatusCode l) ≤ length l.
Proof. apply length_filter. Qed.

Lemma fabricated_code (e : JobExecution) :
  response_code e = None ∨ response_code e = Some 0%Z →
  deriveStatusCode e =
  if bool_decide (status e = "success") then 200%Z
  else if bool_decide (status e = "failure") then 500%Z else 0%Z.
Proof. unfold deriveStatusCode. by intros [-> | ->]. Qed.

Lemma fabricated_is2xx (e : JobExecution) :
  response_code e = None ∨ response_code e = Some 0%Z →
  is2xx (deriveStatusCode e) = bool_decide (status e = "success").
Proof.
  intros He. rewrite (fabricated_code e He). by repeat case_bool_decide.
Qed.

(** The three counts of the summary, from the derived codes. *)
Lemma summary_by_code (k : list JobExecution) :
  let stats := Details.summaryStats (Details.executions k) in
  Details.total stats = length k ∧
  Details.success stats = length (successfulBy deriveStatusCode k) ∧
  Details.error_count stats =
    length k - length (successfulBy deriveStatusCode k).
Proof.
  split; [simpl; apply executions_length|]. split; [apply success_by_code|].
  rewrite <- success_by_code, <- (executions_length k). done.
Qed.

(** The badge of the page without pagination, by the code. *)
Lemma legacy_style (st : string) (c : Z) :
  style (Legacy.getStatusBadge st c) =
  if is2xx c then SuccessStyle
  else if is4xx c then ClientErrorStyle else FailureStyle.
Proof.
  unfold Legacy.getStatusBadge. destruct (is2xx c); [done|].
  by destruct (is4xx c).
Qed.

(** C10, as amended. For an execution whose wire [response_code] is absent
    or 0, both versions of [transformExecution] make up the status code 200
    for status [success], 500 for [failure] and 0 otherwise.  The code of a
    row, not its status, decides the class of its chart bar, the badge of
    the page without pagination, and the summary: the success count is the
    number of rows whose code is in [200,300), the error count the rest, so
    adding the record to any list raises the success count exactly when
    its status is [success] and the error count otherwise, and the success
    rate is computed from these counts.  The badge of the paginated page is
    chosen by the status for queued, running and timed out executions,
    whatever their code, and by the code for every other status: a record
    without a code is then success-styled for [success] and failure-styled
    otherwise. *)
Theorem C10_fabricated_status_code (e : JobExecution) (l : list JobExecution) :
  response_code e = None ∨ response_code e = Some 0%Z →
  let fabricated :=
    if bool_decide (status e = "success") then 200%Z
    else if bool_decide (status e = "failure") then 500%Z else 0%Z in
  let byCode (c : Z) :=
    if is2xx c then SuccessStyle
    else if is4xx c then ClientErrorStyle else FailureStyle in
  let x := Details.transformExecution e in
  let before := Details.summaryStats (Details.executions l) in
  let after := Details.summaryStats (Details.executions (e :: l)) in
  (* the fabricated code *)
  Details.statusCode x = fabricated ∧
  Legacy.statusCode (Legacy.transformExecution e) = fabricated ∧
  (* the chart bar: by the code of the row, whatever its status *)
  (∀ y, Details.bar_status (Details.chartBar y) =
        if is2xx (Details.statusCode y) then "success" else "error") ∧
  Details.bar_status (Details.chartBar x) =
    (if bool_decide (status e = "success") then "success" else "error") ∧
  (* the badge of the page without pagination: by the code, whatever the
     status *)
  (∀ st c, style (Legacy.getStatusBadge st c) = byCode c) ∧
  style (Legacy.badgeOf (Legacy.transformExecution e)) = byCode fabricated ∧
  (* the badge of the paginated page: by the status for queued, running
     and timeout rows, by the code for the others *)
  (∀ c, style (Details.getStatusBadge "queued" c) = QueuedStyle ∧
        style (Details.getStatusBadge "running" c) = RunningStyle ∧
        style (Details.getStatusBadge "timeout" c) = TimeoutStyle) ∧
  (∀ st c, st ≠ "queued" → st ≠ "running" → st ≠ "timeout" →
     style (Details.getStatusBadge st c) = byCode c) ∧
  style (Details.badgeOf x) =
    (if bool_decide (status e = "queued") then QueuedStyle
     else if bool_decide (status e = "running") then RunningStyle
     else if bool_decide (status e = "timed_out") then TimeoutStyle
     else byCode fabricated) ∧
  (status e = "success" → style (Details.badgeOf x) = SuccessStyle) ∧
  (status e = "failure" → style (Details.badgeOf x) = FailureStyle) ∧
  (* the summary: counted from the codes *)
  (∀ k, let stats := Details.summaryStats (Details.executions k) in
     Details.total stats = length k ∧
     Details.success stats = length (successfulBy deriveStatusCode k) ∧
     Details.error_count stats =
       length k - length (successfulBy deriveStatusCode k)) ∧
  Details.success before = length (successfulBy deriveStatusCode l) ∧
  Details.total after = S (Details.total before) ∧
  Details.success after =
    Details.success before + (if bool_decide (status e = "success") then 1 else 0) ∧
  Details.error_count after =
    Details.error_count before + (if bool_decide (status e = "success") then 0 else 1) ∧
  Details.successRate after =
    round_percent (Details.success after) (Details.total after).
Proof.
  intros He fabricated byCode x before after.
  pose proof (fabricated_code e He) as Hcode.
  pose proof (fabricated_is2xx e He) as H2xx.
  assert (Hsucc : length (successfulBy deriveStatusCode (e :: l)) =
                  length (successfulBy deriveStatusCode l)
                  + (if bool_decide (status e = "success") then 1 else 0)).
  { unfold successfulBy. rewrite filter_cons, H2xx.
    case_bool_decide; simpl; lia. }
  assert (Hother : ∀ st c, st ≠ "queued" → st ≠ "running" → st ≠ "timeout" →
            style (Details.getStatusBadge st c) = byCode c).
  { intros st c Hq Hr Ht. rewrite details_style_by_code by done.
    apply legacy_style. }
  assert (Hbadge : style (Details.badgeOf x) =
    (if bool_decide (status e = "queued") then QueuedStyle
     else if bool_decide (status e = "running") then RunningStyle
     else if bool_decide (status e = "timed_out") then TimeoutStyle
     else byCode fabricated)).
  { destruct (display_status_cases e) as (Hq & Hr & Ht). fold x in Hq, Hr, Ht.
    unfold Details.badgeOf.
    change (Details.statusCode x) with (deriveStatusCode e). rewrite Hcode.
    fold fabricated. generalize fabricated as c. intros c.
    set (shown := Details.x_status x) in *. clearbody shown.
    destruct (decide (status e = "queued")) as [H1|H1].
    { rewrite (bool_decide_eq_true_2 _ H1). apply Hq in H1. by rewrite H1. }
    rewrite (bool_decide_eq_false_2 _ H1).
    destruct (decide (status e = "running")) as [H2|H2].
    { rewrite (bool_decide_eq_true_2 _ H2). apply Hr in H2. by rewrite H2. }
    rewrite (bool_decide_eq_false_2 _ H2).
    destruct (decide (status e = "timed_out")) as [H3|H3].
    { rewrite (bool_decide_eq_true_2 _ H3). apply Ht in H3. by rewrite H3. }
    rewrite (bool_decide_eq_false_2 _ H3).
    apply Hother; tauto. }
  split; [exact Hcode|]. split; [exact Hcode|].
  split; [done|].
  split.
  { unfold Details.chartBar. simpl. by rewrite H2xx. }
  split; [apply legacy_style|].
  split.
  { unfold Legacy.badgeOf. rewrite legacy_style. simpl.
    fold (deriveStatusCode e). by rewrite Hcode. }
  split; [done|].
  split; [exact Hother|].
  split; [exact Hbadge|].
  split.
  { intros Hs. rewrite Hbadge. subst byCode fabricated. by rewrite Hs. }
  split.
  { intros Hs. rewrite Hbadge. subst byCode fabricated. by rewrite Hs. }
  split; [apply summary_by_code|].
  destruct (summary_by_code l) as (Htl & Hsl & Hel).
  destruct (summary_by_code (e :: l)) as (Hte & Hse & Hee).
  cbv zeta in Htl, Hsl, Hel, Hte, Hse, Hee. fold before in Htl, Hsl, Hel.
  fold after in Hte, Hse, Hee.
  split; [done|].
  split; [by rewrite Hte, Htl|].
  split; [by rewrite Hse, Hsl|].
  split.
  { rewrite Hee, Hel, Hsucc. simpl (length (e :: l)).
    pose proof (success_le_total l).
    destruct (bool_decide (status e = "success")); lia. }
  subst after. unfold Details.summaryStats at 1. simpl.
  rewrite bool_decide_eq_true_2; [done|].
  rewrite executions_length. simpl. lia.
Qed.

End StatisticsProperties.

(** The claim of C10 fails on the badge of the paginated page: two
    executions without a response code, one running and one of a status
    unknown to the page, get the same made-up code 0, yet the first is
    styled as running and the second as a failure; and with the code 200 a
    running row is still styled as running where any other row is styled as
    a success. *)
Lemma C10_counterexample :
  let running :=
    {| id := "exec-2"; status := "running"; created_at := 0;
       response_code := None; duration_ms := None; attempt := Some 1%Z;
       error := None |} in
  let cancelled :=
    {| id := "exec-3"; status := "cancelled"; created_at := 0;
       response_code := None; duration_ms := None; attempt := Some 1%Z;
       error := None |} in
  deriveStatusCode running = 0%Z ∧ deriveStatusCode cancelled = 0%Z ∧
  style (Details.badgeOf (Details.transformExecution running)) = RunningStyle ∧
  style (Details.badgeOf (Details.transformExecution cancelled)) = FailureStyle ∧
  style (Details.getStatusBadge "running" 200) = RunningStyle ∧
  style (Details.getStatusBadge "error" 200) = SuccessStyle.
Proof. by repeat split. Qed.

Lemma C10_fabricated_status_code_witness :
  Details.statusCode (Details.transformExecution queuedExecution) = 0%Z.
Proof.
  exact (proj1 (@C10_fabricated_status_code
                  {| round_mean := λ s _, s; round_percent := λ _ _, 0%Z |}
                  queuedExecution [] (or_introl eq_refl))).
Defined.

(** ** The execution-history loader *)
Section LoaderProperties.

Import Loader.

(** *** The append updater *)

Lemma appendNew_nil (prev : list JobExecution) : appendNew [] prev = prev.
Proof. unfold appendNew. by rewrite filter_nil, app_nil_r. Qed.

Lemma appendNew_prefix (page prev : list JobExecution) :
  prev `prefix_of` appendNew page prev.
Proof. unfold appendNew. by eexists. Qed.

Lemma appendNew_fresh (page prev : list JobExecution) (e : JobExecution) :
  e ∈ appendNew page prev → e ∈ prev ∨ (e ∈ page ∧ id e ∉ ids prev).
Proof.
  unfold appendNew. rewrite elem_of_app, list_elem_of_filter, elem_of_list_to_set.
  tauto.
Qed.

Lemma appendNew_NoDup (page prev : list JobExecution) :
  NoDup (ids prev) → NoDup (ids page) → NoDup (ids (appendNew page prev)).
Proof.
  intros Hprev Hpage. unfold appendNew, ids. rewrite fmap_app.
  apply NoDup_app. split; [done|]. split.
  - intros i Hi Hnew. apply list_elem_of_fmap in Hnew as (e & -> & He).
    apply list_elem_of_filter in He as [Hfresh _].
    apply Hfresh. by apply elem_of_list_to_set.
  - revert Hpage. unfold ids. generalize (list_to_set (id <$> prev) : gset string).
    intros seen. induction page as [|e page IH]; intros Hpage; [constructor|].
    rewrite fmap_cons in Hpage. apply NoDup_cons in Hpage as [He Hpage].
    rewrite filter_cons. destruct (decide (id e ∉ seen)); [|by apply IH].
    rewrite fmap_cons. apply NoDup_cons. split; [|by apply IH].
    intros Hin. apply He. apply list_elem_of_fmap in Hin as (e' & -> & He').
    apply list_elem_of_filter in He' as [_ He']. by apply list_elem_of_fmap_2.
Qed.

Lemma appendNew_length (page prev : list JobExecution) :
  length (appendNew page prev) ≤ length prev + length page.
Proof.
  unfold appendNew. rewrite length_app.
  pose proof (length_filter (λ e, id e ∉ (list_to_set (id <$> prev) : gset string)) page).
  lia.
Qed.

(** A page that repeats an id already shown adds fewer rows than it has. *)
Lemma appendNew_length_repeat (page prev : list JobExecution) (e : JobExecution) :
  e ∈ page → id e ∈ ids prev →
  length (appendNew page prev) < length prev + length page.
Proof.
  intros He Hid. unfold appendNew. rewrite length_app.
  apply Nat.add_lt_mono_l. apply (length_filter_lt _ _ e); [done|].
  intros Hfresh. apply Hfresh. by apply elem_of_list_to_set.
Qed.

Lemma appendNew_idem (page prev : list JobExecution) :
  appendNew page (appendNew page prev) = appendNew page prev.
Proof.
  unfold appendNew at 1.
  assert (Hnil : ∀ k, k ⊆ page →
    filter (λ e, id e ∉ (list_to_set (id <$> appendNew page prev) : gset string)) k = []).
  { induction k as [|e k IH]; intros Hsub; [done|].
    rewrite filter_cons_False.
    - apply IH. intros y Hy. apply Hsub. by right.
    - intros Hnot. apply Hnot. rewrite elem_of_list_to_set.
      unfold appendNew. rewrite fmap_app, elem_of_app.
      destruct (decide (id e ∈ id <$> prev)) as [?|Hfresh]; [by left|right].
      apply list_elem_of_fmap_2. apply list_elem_of_filter. split.
      + by rewrite elem_of_list_to_set.
      + apply Hsub. by left. }
  by rewrite (Hnil page), app_nil_r.
Qed.

(** *** The effects, case by case *)

Lemma appendEffect_zero (s : State) : currentOffset s = 0 → appendEffect s = s.
Proof.
  intros H0. unfold appendEffect. destruct (moreExecutionsData s); [|done].
  rewrite !bool_decide_eq_false_2 by lia. done.
Qed.

Lemma appendEffect_none (s : State) :
  moreExecutionsData s = None → appendEffect s = s.
Proof. intros Hn. unfold appendEffect. by rewrite Hn. Qed.

Lemma appendEffect_pos (s : State) (d : Page) :
  0 < currentOffset s → moreExecutionsData s = Some d →
  appendEffect s = appended d s.
Proof.
  intros Hpos Hd. unfold appendEffect, appended. rewrite Hd.
  destruct (data d) as [|e l] eqn:Hdata.
  - rewrite bool_decide_eq_false_2 by (simpl; lia).
    rewrite bool_decide_eq_true_2 by done.
    rewrite appendNew_nil. destruct s; simpl. done.
  - rewrite bool_decide_eq_true_2 by (simpl; lia). done.
Qed.

Lemma initEffect_pos (s : State) : 0 < currentOffset s → initEffect s = s.
Proof.
  intros Hpos. unfold initEffect. destruct (executionsData s); [|done].
  rewrite !bool_decide_eq_false_2 by lia. done.
Qed.

Lemma initEffect_none (s : State) : executionsData s = None → initEffect s = s.
Proof. intros Hn. unfold initEffect. by rewrite Hn. Qed.

Lemma initEffect_zero (s : State) (d : Page) :
  currentOffset s = 0 → executionsData s = Some d →
  initEffect s =
  if bool_decide (length (loadedExecutions s) = 0) || isRefreshing s
  then showFirstPage d s else s.
Proof.
  intros H0. intros Hd. unfold initEffect. rewrite Hd.
  rewrite (bool_decide_eq_true_2 (currentOffset s = 0)) by done.
  destruct (decide (length (loadedExecutions s) = 0)) as [Hl|Hl].
  - by rewrite !bool_decide_eq_true_2 by done.
  - rewrite (bool_decide_eq_false_2 (_ ∧ _)) by (intros [_ ?]; done).
    by rewrite (bool_decide_eq_false_2 (length _ = 0)).
Qed.

(** *** What the effects leave alone *)

Lemma initEffect_frame (s : State) :
  currentOffset (initEffect s) = currentOffset s ∧
  isRefreshing (initEffect s) = isRefreshing s ∧
  executionsData (initEffect s) = executionsData s ∧
  moreExecutionsData (initEffect s) = moreExecutionsData s ∧
  isLoadingMoreExecutions (initEffect s) = isLoadingMoreExecutions s.
Proof.
  unfold initEffect. destruct (executionsData s) eqn:Hd; [|by rewrite Hd].
  repeat case_match; simpl; by rewrite ?Hd.
Qed.

Lemma appendEffect_frame (s : State) :
  currentOffset (appendEffect s) = currentOffset s ∧
  isRefreshing (appendEffect s) = isRefreshing s ∧
  executionsData (appendEffect s) = executionsData s ∧
  moreExecutionsData (appendEffect s) = moreExecutionsData s ∧
  isLoadingMoreExecutions (appendEffect s) = isLoadingMoreExecutions s ∧
  totalExecutions (appendEffect s) = totalExecutions s.
Proof.
  unfold appendEffect. destruct (moreExecutionsData s) eqn:Hd; [|by rewrite Hd].
  repeat case_match; simpl; by rewrite ?Hd.
Qed.

(** The effects neither read nor write the refs. *)
Lemma initEffect_deps (s : State) :
  initDeps (initEffect s) = initDeps s ∧ appendDeps (initEffect s) = appendDeps s.
Proof.
  unfold initEffect. destruct (executionsData s); [|done].
  repeat case_match; done.
Qed.

Lemma appendEffect_deps (s : State) :
  initDeps (appendEffect s) = initDeps s ∧
  appendDeps (appendEffect s) = appendDeps s.
Proof.
  unfold appendEffect. destruct (moreExecutionsData s); [|done].
  repeat case_match; done.
Qed.

(** The effects neither read nor write the refs and the dependency arrays. *)
Lemma initEffect_setRefs (a b c : bool) (s : State) :
  initEffect (setRefs a b c s) = setRefs a b c (initEffect s).
Proof.
  unfold initEffect. simpl. destruct (executionsData s); [|done].
  repeat case_match; done.
Qed.

Lemma appendEffect_setRefs (a b c : bool) (s : State) :
  appendEffect (setRefs a b c s) = setRefs a b c (appendEffect s).
Proof.
  unfold appendEffect. simpl. destruct (moreExecutionsData s); [|done].
  repeat case_match; done.
Qed.

Lemma initEffect_setDeps (i : InitDeps) (a : AppendDeps) (s : State) :
  initEffect (setDeps i a s) = setDeps i a (initEffect s).
Proof.
  unfold initEffect. simpl. destruct (executionsData s); [|done].
  repeat case_match; done.
Qed.

Lemma appendEffect_setDeps (i : InitDeps) (a : AppendDeps) (s : State) :
  appendEffect (setDeps i a s) = setDeps i a (appendEffect s).
Proof.
  unfold appendEffect. simpl. destruct (moreExecutionsData s); [|done].
  repeat case_match; done.
Qed.

(** *** A commit, and why two are enough *)

Lemma showFirstPage_idem (d : Page) (s : State) :
  showFirstPage d (showFirstPage d s) = showFirstPage d s.
Proof. done. Qed.

Lemma initEffect_idem (s : State) : initEffect (initEffect s) = initEffect s.
Proof.
  destruct (executionsData s) as [d|] eqn:Hd;
    [|by rewrite !(initEffect_none s Hd)].
  destruct (decide (currentOffset s = 0)) as [H0|Hpos];
    [|by rewrite !(initEffect_pos s) by lia].
  rewrite (initEffect_zero s d H0 Hd).
  destruct (bool_decide (length (loadedExecutions s) = 0) || isRefreshing s)
    eqn:Hfire.
  - rewrite (initEffect_zero (showFirstPage d s) d) by done.
    rewrite showFirstPage_idem. by case_match.
  - by rewrite (initEffect_zero s d H0 Hd), Hfire.
Qed.

Lemma bodies_frame (s : State) :
  currentOffset (bodies s) = currentOffset s ∧
  isRefreshing (bodies s) = isRefreshing s ∧
  executionsData (bodies s) = executionsData s ∧
  moreExecutionsData (bodies s) = moreExecutionsData s ∧
  isLoadingMoreExecutions (bodies s) = isLoadingMoreExecutions s.
Proof.
  unfold bodies.
  destruct (initEffect_frame s) as (Ho & Hr & He & Hm & Hl).
  destruct (appendEffect_frame s) as (Ho' & Hr' & He' & Hm' & Hl' & _).
  destruct (appendEffect_frame (initEffect s)) as (Ho'' & Hr'' & He'' & Hm'' & Hl'' & _).
  repeat case_bool_decide; repeat split; congruence.
Qed.

Lemma bodies_appendDepsOf (s : State) : appendDepsOf (bodies s) = appendDepsOf s.
Proof.
  unfold appendDepsOf. by destruct (bodies_frame s) as (-> & _ & _ & -> & _).
Qed.

(** A commit is its content effects followed by the bookkeeping. *)
Lemma effects_bodies (s : State) :
  effects s =
  setDeps (initDepsOf s) (appendDepsOf s)
    (setRefs (hasMore s) (isLoadingMore s) (isLoadingMoreExecutions s) (bodies s)).
Proof.
  unfold effects, bodies, syncRefs.
  repeat case_bool_decide;
    by rewrite ?initEffect_setRefs, ?appendEffect_setRefs.
Qed.

(** When a commit has changed what the initialisation effect depends on,
    that effect has nothing left to write. *)
Lemma bodies_init_done (s : State) :
  initDepsOf (bodies s) ≠ initDepsOf s → initEffect (bodies s) = bodies s.
Proof.
  intros Hchanged.
  destruct (decide (currentOffset s = 0)) as [H0|Hpos].
  - revert Hchanged. unfold bodies.
    assert (Ha : ∀ t, currentOffset t = 0 →
              (if bool_decide (appendDeps s = appendDepsOf s)
               then t else appendEffect t) = t).
    { intros t Ht. case_bool_decide; [done|by apply appendEffect_zero]. }
    cbv zeta. destruct (bool_decide (initDeps s = initDepsOf s)).
    + rewrite (Ha s H0). done.
    + rewrite (Ha (initEffect s)) by by destruct (initEffect_frame s) as (-> & _).
      intros _. apply initEffect_idem.
  - apply initEffect_pos. destruct (bodies_frame s) as (-> & _). lia.
Qed.

Lemma rest_rest (s : State) : rest (rest s) = rest s.
Proof. done. Qed.

(** Two commits leave the result of the content effects, with the refs and
    the dependency arrays mirroring it. *)
Lemma settle_bodies (s : State) : settle s = rest (bodies s).
Proof.
  unfold settle. rewrite (effects_bodies (effects s)).
  assert (Hb : bodies (effects s) = effects s).
  { unfold bodies at 1.
    assert (Hi : initDeps (effects s) = initDepsOf s)
      by by rewrite effects_bodies.
    assert (Ha : appendDeps (effects s) = appendDepsOf (effects s)).
    { rewrite effects_bodies at 1. rewrite effects_bodies. simpl.
      unfold appendDepsOf. simpl. fold (appendDepsOf (bodies s)).
      by rewrite bodies_appendDepsOf. }
    rewrite (bool_decide_eq_true_2 _ Ha).
    case_bool_decide as Hd; [done|].
    rewrite effects_bodies, initEffect_setDeps, initEffect_setRefs.
    rewrite bodies_init_done; [done|].
    intros Heq. apply Hd. rewrite Hi, <- Heq. by rewrite effects_bodies. }
  rewrite Hb, effects_bodies. unfold rest, syncRefs. simpl.
  unfold initDepsOf, appendDepsOf. simpl. done.
Qed.

Lemma settle_atRest (s : State) : atRest (settle s).
Proof. unfold atRest. rewrite settle_bodies. apply rest_rest. Qed.

Lemma atRest_deps (s : State) :
  atRest s → initDeps s = initDepsOf s ∧ appendDeps s = appendDepsOf s.
Proof.
  unfold atRest. intros Hs. split.
  - apply (f_equal initDeps) in Hs. by simpl in Hs.
  - apply (f_equal appendDeps) in Hs. by simpl in Hs.
Qed.

Lemma atRest_refsInSync (s : State) : atRest s → refsInSync s.
Proof.
  unfold atRest. intros Hs. repeat split.
  - apply (f_equal hasMoreRef) in Hs. by simpl in Hs.
  - apply (f_equal isLoadingMoreRef) in Hs. by simpl in Hs.
  - apply (f_equal isLoadingMoreExecutionsRef) in Hs. by simpl in Hs.
Qed.

(** At rest no content effect runs. *)
Lemma bodies_atRest (s : State) : atRest s → bodies s = s.
Proof.
  intros Hs. destruct (atRest_deps s Hs) as [Hi Ha]. unfold bodies.
  by rewrite !bool_decide_eq_true_2.
Qed.

Lemma settle_at_rest (s : State) : atRest s → settle s = s.
Proof. intros Hs. by rewrite settle_bodies, bodies_atRest. Qed.

Lemma effects_at_rest (s : State) : atRest s → effects s = s.
Proof. intros Hs. by rewrite effects_bodies, bodies_atRest. Qed.

(** A third commit changes nothing. *)
Lemma effects_settled (s : State) : effects (settle s) = settle s.
Proof. apply effects_at_rest, settle_atRest. Qed.

Lemma settle_frame (s : State) :
  currentOffset (settle s) = currentOffset s ∧
  isRefreshing (settle s) = isRefreshing s ∧
  executionsData (settle s) = executionsData s ∧
  moreExecutionsData (settle s) = moreExecutionsData s ∧
  isLoadingMoreExecutions (settle s) = isLoadingMoreExecutions s.
Proof. rewrite settle_bodies. simpl. apply bodies_frame. Qed.

(** *** One step *)

Lemma step_bodies (e : Event) (s : State) :
  step e s = rest (bodies (observeMoreQuery (loadMoreOffset s) (handle e s))).
Proof. unfold step. apply settle_bodies. Qed.

Lemma step_atRest (e : Event) (s : State) : atRest (step e s).
Proof. apply settle_atRest. Qed.

Lemma initial_atRest : atRest initial.
Proof. done. Qed.

(** Every state of a run is at rest. *)
Lemma runFrom_atRest (trace : list Event) (s : State) :
  atRest s → atRest (runFrom s trace).
Proof.
  revert s. induction trace as [|e trace IH]; intros s Hs; simpl; [done|].
  apply IH, step_atRest.
Qed.

Lemma run_atRest (trace : list Event) : atRest (run trace).
Proof. apply runFrom_atRest, initial_atRest. Qed.

(** The load-more observer keeps its key while the offset stays. *)
Lemma observeMoreQuery_same (s t : State) :
  currentOffset t = currentOffset s →
  observeMoreQuery (loadMoreOffset s) t = t.
Proof.
  intros Ho. unfold observeMoreQuery, loadMoreOffset. rewrite Ho.
  by rewrite bool_decide_eq_true_2.
Qed.

Lemma step_MorePageArrives (d : Page) (s : State) :
  step (MorePageArrives d) s = settle (withMoreQuery (Some d) false s).
Proof. unfold step. by rewrite observeMoreQuery_same. Qed.

(** Of the content effects, only the append effect can run when a page
    reaches the load-more observer of a state at rest, and it does when the
    page differs from the data the observer had. *)
Lemma arrival_bodies (d : Page) (s : State) :
  atRest s →
  bodies (withMoreQuery (Some d) false s) =
  if bool_decide (moreExecutionsData s = Some d)
  then withMoreQuery (Some d) false s
  else appendEffect (withMoreQuery (Some d) false s).
Proof.
  intros Hs. destruct (atRest_deps s Hs) as [Hi Ha]. unfold bodies.
  rewrite (bool_decide_eq_true_2 (initDeps _ = _)) by exact Hi.
  simpl (appendDeps _). rewrite Ha. unfold appendDepsOf. simpl.
  case_bool_decide as H1; case_bool_decide as H2; try done.
  - destruct H2. congruence.
  - destruct H1. congruence.
Qed.

Lemma arrival_loaded (d : Page) (s : State) :
  atRest s →
  loadedExecutions (step (MorePageArrives d) s) =
  if bool_decide (moreExecutionsData s ≠ Some d ∧ 0 < currentOffset s)
  then appendNew (data d) (loadedExecutions s)
  else loadedExecutions s.
Proof.
  intros Hs. rewrite step_MorePageArrives, settle_bodies. simpl.
  rewrite (arrival_bodies d s Hs).
  destruct (decide (moreExecutionsData s = Some d)) as [Heq|Hne].
  - rewrite bool_decide_eq_true_2 by done.
    rewrite bool_decide_eq_false_2 by (intros [? _]; done). done.
  - rewrite (bool_decide_eq_false_2 _ Hne).
    destruct (decide (0 < currentOffset s)) as [Hpos|H0].
    + rewrite bool_decide_eq_true_2 by done.
      by rewrite (appendEffect_pos _ d) by done.
    + rewrite bool_decide_eq_false_2 by (intros [_ ?]; done).
      rewrite appendEffect_zero; [done|]. simpl. lia.
Qed.

(** *** No duplicate ids *)

Lemma initEffect_distinct (s : State) :
  distinctState s → distinctState (initEffect s).
Proof.
  intros Hs.
  destruct (executionsData s) as [d|] eqn:Hd;
    [|by rewrite (initEffect_none s Hd)].
  destruct (decide (currentOffset s = 0)) as [H0|Hpos];
    [|by rewrite (initEffect_pos s) by lia].
  rewrite (initEffect_zero s d H0 Hd). case_match; [|done].
  destruct Hs as (Hl & He & Hm).
  split; [apply (He d Hd)|]. by split.
Qed.

Lemma appendEffect_distinct (s : State) :
  distinctState s → distinctState (appendEffect s).
Proof.
  intros Hs.
  destruct (moreExecutionsData s) as [d|] eqn:Hd;
    [|by rewrite (appendEffect_none s Hd)].
  destruct (decide (currentOffset s = 0)) as [H0|Hpos];
    [by rewrite (appendEffect_zero s H0)|].
  rewrite (appendEffect_pos s d) by (done || lia).
  destruct Hs as (Hl & He & Hm).
  split; [|by split].
  simpl. apply appendNew_NoDup; [done|]. by apply Hm.
Qed.

Lemma bodies_distinct (s : State) : distinctState s → distinctState (bodies s).
Proof.
  intros Hs. unfold bodies. cbv zeta.
  repeat case_bool_decide;
    auto using initEffect_distinct, appendEffect_distinct.
Qed.

Lemma settle_distinct (s : State) : distinctState s → distinctState (settle s).
Proof.
  intros Hs. rewrite settle_bodies. apply bodies_distinct in Hs. exact Hs.
Qed.

Lemma observeMoreQuery_distinct (before : option nat) (s : State) :
  distinctState s → distinctState (observeMoreQuery before s).
Proof.
  intros (Hl & He & Hm). unfold observeMoreQuery. case_bool_decide; [done|].
  by repeat split.
Qed.

Lemma NoDup_ids_nil : NoDup (ids []).
Proof. constructor. Qed.

Lemma handle_distinct (e : Event) (s : State) :
  distinctEvent e → distinctState s → distinctState (handle e s).
Proof.
  intros Hev (Hl & He & Hm). destruct e as [d|d| | | |[d|]|]; simpl in *.
  - split; [done|]. split; [|done]. by intros ? [= <-].
  - split; [done|]. split; [done|]. by intros ? [= <-].
  - by repeat split.
  - unfold loadMore. by case_match.
  - destruct (isRefreshing s); [done|]. split; [apply NoDup_ids_nil|done].
  - destruct (isRefreshing s); [|done]. unfold refreshFinish.
    case_bool_decide; simpl.
    + split; [done|]. split; [|done]. by intros ? [= <-].
    + split; [done|]. split; [|done]. by intros ? [= <-].
  - by destruct (isRefreshing s).
  - split; [apply NoDup_ids_nil|]. by split.
Qed.

Lemma step_distinct (e : Event) (s : State) :
  distinctEvent e → distinctState s → distinctState (step e s).
Proof.
  intros He Hs. unfold step.
  by apply settle_distinct, observeMoreQuery_distinct, handle_distinct.
Qed.

Lemma runFrom_distinct (trace : list Event) (s : State) :
  Forall distinctEvent trace → distinctState s →
  distinctState (runFrom s trace).
Proof.
  revert s. induction trace as [|e trace IH]; intros s Ht Hs; simpl; [done|].
  apply Forall_cons in Ht as [He Ht]. by apply IH, step_distinct.
Qed.

Lemma initial_distinct : distinctState initial.
Proof. split; [apply NoDup_ids_nil|]. by split. Qed.

(** C1. Along every run whose pages list no execution twice -- initial
    load, pages arriving for load-more, failed fetches, refreshes, changes
    of the webhook id, in any order -- the loaded list never holds two
    records with the same id.  When a further page arrives that repeats an
    id already in the list, the list still has no duplicate id and grows by
    less than the size of the page. *)
Theorem C1_no_duplicate_ids (trace : list Event) :
  Forall distinctEvent trace →
  let s := run trace in
  NoDup (ids (loadedExecutions s)) ∧
  ∀ (d : Page) (e : JobExecution),
    distinctPage d → e ∈ data d → id e ∈ ids (loadedExecutions s) →
    let s' := step (MorePageArrives d) s in
    NoDup (ids (loadedExecutions s')) ∧
    length (loadedExecutions s') < length (loadedExecutions s) + length (data d).
Proof.
  intros Ht s.
  pose proof (runFrom_distinct trace initial Ht initial_distinct) as Hs.
  fold (run trace) in Hs. fold s in Hs. split; [apply Hs|].
  intros d e Hd He Hid s'.
  split.
  - by apply (step_distinct (MorePageArrives d) s Hd Hs).
  - subst s'. rewrite arrival_loaded by apply run_atRest.
    case_bool_decide.
    + by apply appendNew_length_repeat with e.
    + apply list_elem_of_split in He as (l1 & l2 & ->).
      rewrite length_app. simpl. lia.
Qed.

(** *** The guard of [loadMore] *)

Lemma loadMore_blocked (s : State) :
  refsInSync s →
  isLoadingMore s = true ∨ isLoadingMoreExecutions s = true ∨ hasMore s = false →
  loadMoreAllowed s = false.
Proof.
  intros (Hm & Hl & Hq) Hblocked. unfold loadMoreAllowed.
  rewrite Hm, Hl, Hq. destruct Hblocked as [-> | [-> | ->]]; simpl.
  - done.
  - by rewrite andb_false_r.
  - by rewrite andb_false_r.
Qed.

Lemma handle_RefreshResolved_offset (r : option Page) (s : State) :
  currentOffset (handle (RefreshResolved r) s) = currentOffset s.
Proof.
  simpl. case_match; [|done]. unfold refreshFinish. by repeat case_match.
Qed.










(** *** Completion of a load-more fetch *)

(** C4. When the page of a load-more fetch arrives -- the cursor is past
    the first page and the load-more observer did not hold that page
    already -- the total stays what it was and [hasMore] becomes
    [page length = 20]; an empty page therefore sets [hasMore] to false.
    The loading flag is cleared and the new rows are appended. *)
Theorem C4_loadMore_completion (trace : list Event) (d : Page) :
  let s := run trace in
  0 < currentOffset s → moreExecutionsData s ≠ Some d →
  let s' := step (MorePageArrives d) s in
  totalExecutions s' = totalExecutions s ∧
  hasMore s' = bool_decide (length (data d) = 20) ∧
  (data d = [] → hasMore s' = false) ∧
  isLoadingMore s' = false ∧
  loadedExecutions s' = appendNew (data d) (loadedExecutions s).
Proof.
  intros s Hpos Hnew s'. subst s'.
  rewrite step_MorePageArrives, settle_bodies.
  rewrite (arrival_bodies d s (run_atRest trace)).
  rewrite (bool_decide_eq_false_2 _ Hnew).
  rewrite (appendEffect_pos _ d) by done. simpl.
  repeat split. by intros ->.
Qed.

(** *** The cursor *)

Lemma observeMoreQuery_offset (before : option nat) (s : State) :
  currentOffset (observeMoreQuery before s) = currentOffset s.
Proof. unfold observeMoreQuery. by case_match. Qed.

Lemma step_offset (e : Event) (s : State) :
  currentOffset (step e s) =
  match e with
  | LoadMore => if loadMoreAllowed s then currentOffset s + 20 else currentOffset s
  | RefreshClicked => if isRefreshing s then currentOffset s else 0
  | IdChanged => 0
  | InitialPageArrives _ | MorePageArrives _ | MoreFetchFails
  | RefreshResolved _ => currentOffset s
  end.
Proof.
  unfold step. destruct (settle_frame (observeMoreQuery (loadMoreOffset s) (handle e s)))
    as (-> & _).
  rewrite observeMoreQuery_offset.
  destruct e as [d|d| | | |r|]; simpl; try done.
  - unfold loadMore. by case_match.
  - by case_match.
  - case_match; [|done]. unfold refreshFinish. by repeat case_match.
Qed.

Lemma runFrom_offset (trace : list Event) (s : State) (n : nat) :
  currentOffset s = 20 * n →
  currentOffset (runFrom s trace) = 20 * acceptedLoadMores s n trace.
Proof.
  revert s n. induction trace as [|e trace IH]; intros s n Hn; simpl; [done|].
  apply IH. rewrite step_offset.
  destruct e as [d|d| | | |r|]; try done; repeat case_match; lia.
Qed.

(** C5, as amended. The cursor [currentOffset] is 20 times the number of
    [loadMore] calls that passed the guard since the list was last reset
    (by a refresh or a change of id): the offset of the page requested
    last, which is 0 while only the first page has been asked for.  It
    moves by 20 when a [loadMore] is accepted -- the offset of the request
    then issued -- and at no other time, whatever number of rows the pages
    contribute. *)
Theorem C5_cursor (trace : list Event) :
  let s := run trace in
  currentOffset s = 20 * acceptedLoadMores initial 0 trace ∧
  (loadMoreAllowed s = true →
     loadMoreOffset (step LoadMore s) = Some (currentOffset s + 20)) ∧
  (∀ d, currentOffset (step (MorePageArrives d) s) = currentOffset s ∧
        currentOffset (step (InitialPageArrives d) s) = currentOffset s).
Proof.
  intros s. split; [by apply runFrom_offset|]. split.
  - intros Hok. unfold loadMoreOffset. rewrite step_offset, Hok.
    by rewrite bool_decide_eq_true_2 by lia.
  - intros d. by rewrite !step_offset.
Qed.

(** The claim of C5 fails once the first page has arrived: one fetch of 20
    records is complete and the cursor is 0; and after the second page, two
    fetches are complete and the cursor is 20. *)
Lemma C5_counterexample :
  let first := [InitialPageArrives (samplePage 0 20)] in
  let second := first ++ [LoadMore; MorePageArrives (samplePage 20 20)] in
  completedFetches first = 1 ∧
  length (loadedExecutions (run first)) = 20 ∧
  currentOffset (run first) = 0 ∧
  currentOffset (run first) ≠ 20 * completedFetches first ∧
  completedFetches second = 2 ∧
  length (loadedExecutions (run second)) = 40 ∧
  currentOffset (run second) = 20 ∧
  currentOffset (run second) ≠ 20 * completedFetches second.
Proof. vm_compute. repeat split; discriminate. Qed.

(** *** A stale page after a refresh *)

Lemma sameButMoreQuery_view (s t : State) :
  sameButMoreQuery s t → view s = view t.
Proof. intros (Hl & Ht & Ho & Hm & Hi & _). unfold view. congruence. Qed.

Lemma sameButMoreQuery_arrival (d : Page) (s : State) :
  sameButMoreQuery (withMoreQuery (Some d) false s) s.
Proof. by repeat split. Qed.

Lemma initDepsOf_same (s t : State) :
  sameButMoreQuery s t → initDepsOf s = initDepsOf t.
Proof.
  intros (Hl & _ & Ho & _ & _ & Hr & _ & _ & Hd & _). unfold initDepsOf.
  congruence.
Qed.

Lemma bodies_zero (s : State) :
  currentOffset s = 0 →
  bodies s = if bool_decide (initDeps s = initDepsOf s) then s else initEffect s.
Proof.
  intros H0. unfold bodies. cbv zeta.
  destruct (bool_decide (initDeps s = initDepsOf s));
    destruct (bool_decide (appendDeps s = appendDepsOf s)); try done.
  - by apply appendEffect_zero.
  - apply appendEffect_zero. by destruct (initEffect_frame s) as (-> & _).
Qed.

(** While the cursor is at 0 the content effects do not look at the
    load-more observer. *)
Lemma bodies_sameButMoreQuery (s t : State) :
  currentOffset s = 0 → sameButMoreQuery s t →
  sameButMoreQuery (bodies s) (bodies t).
Proof.
  intros H0 Hst. pose proof (initDepsOf_same s t Hst) as Hdeps.
  pose proof Hst as (Hl & Ht & Ho & Hm & Hi & Hr & Hmr & Hir & Hd & Hid).
  rewrite (bodies_zero s H0), (bodies_zero t) by congruence.
  rewrite <- Hid, <- Hdeps.
  destruct (bool_decide (initDeps s = initDepsOf s)); [done|].
  destruct (executionsData s) as [d|] eqn:Hds.
  - rewrite (initEffect_zero s d H0 Hds).
    rewrite (initEffect_zero t d) by congruence.
    rewrite <- Hl, <- Hr. case_match; [|done].
    repeat split; simpl; congruence.
  - rewrite (initEffect_none s Hds). by rewrite (initEffect_none t) by congruence.
Qed.

Lemma rest_sameButMoreQuery (s t : State) :
  sameButMoreQuery s t → sameButMoreQuery (rest s) (rest t).
Proof.
  intros Hst. pose proof (initDepsOf_same s t Hst) as Hdeps.
  destruct Hst as (Hl & Ht & Ho & Hm & Hi & Hr & Hmr & Hir & Hd & Hid).
  by repeat split.
Qed.

Lemma settle_sameButMoreQuery (s t : State) :
  currentOffset s = 0 → sameButMoreQuery s t →
  sameButMoreQuery (settle s) (settle t).
Proof.
  intros H0 Hst. rewrite !settle_bodies.
  by apply rest_sameButMoreQuery, bodies_sameButMoreQuery.
Qed.

Lemma refreshFinish_sameButMoreQuery (r : option Page) (s t : State) :
  sameButMoreQuery s t →
  sameButMoreQuery (handle (RefreshResolved r) s) (handle (RefreshResolved r) t).
Proof.
  intros Hst. pose proof Hst as (Hl & Ht & Ho & Hm & Hi & Hr & Hmr & Hir & Hd & Hid).
  simpl. rewrite <- Hr. destruct (isRefreshing s); [|done].
  unfold refreshFinish. rewrite Hd.
  destruct r as [d|]; [case_bool_decide|]; by repeat split.
Qed.

(** A page reaching the load-more observer of a state at rest whose cursor
    is at 0 changes nothing but that observer. *)
Lemma stale_arrival (d : Page) (s : State) :
  currentOffset s = 0 → atRest s →
  sameButMoreQuery (step (MorePageArrives d) s) s.
Proof.
  intros H0 Hrest. rewrite step_MorePageArrives.
  rewrite <- (settle_at_rest s Hrest) at 2.
  apply settle_sameButMoreQuery; [done|]. apply sameButMoreQuery_arrival.
Qed.

Lemma step_RefreshResolved (r : option Page) (s : State) :
  step (RefreshResolved r) s = settle (handle (RefreshResolved r) s).
Proof.
  unfold step. by rewrite observeMoreQuery_same
    by apply handle_RefreshResolved_offset.
Qed.

Lemma step_RefreshResolved_sameButMoreQuery (r : option Page) (s t : State) :
  currentOffset s = 0 → sameButMoreQuery s t →
  sameButMoreQuery (step (RefreshResolved r) s) (step (RefreshResolved r) t).
Proof.
  intros H0 Hst. rewrite !step_RefreshResolved.
  apply settle_sameButMoreQuery.
  - by rewrite handle_RefreshResolved_offset.
  - by apply refreshFinish_sameButMoreQuery.
Qed.

Lemma step_RefreshClicked (s : State) :
  isRefreshing s = false →
  currentOffset (step RefreshClicked s) = 0 ∧
  isRefreshing (step RefreshClicked s) = true.
Proof.
  intros Hr. split.
  - by rewrite step_offset, Hr.
  - unfold step.
    destruct (settle_frame (observeMoreQuery (loadMoreOffset s)
                              (handle RefreshClicked s))) as (_ & -> & _).
    simpl. rewrite Hr. unfold observeMoreQuery. by case_match.
Qed.

(** With the cursor at 0, a list that is not empty and no refresh under way,
    the content effects write nothing. *)
Lemma bodies_quiet (s : State) :
  currentOffset s = 0 → loadedExecutions s ≠ [] → isRefreshing s = false →
  bodies s = s.
Proof.
  intros H0 Hne Hr.
  assert (Hi : initEffect s = s).
  { destruct (executionsData s) as [d|] eqn:Hd; [|by apply initEffect_none].
    rewrite (initEffect_zero s d H0 Hd), Hr.
    rewrite bool_decide_eq_false_2; [done|]. by destruct (loadedExecutions s). }
  rewrite (bodies_zero s H0), Hi. by case_bool_decide.
Qed.

(** The list after a refresh that fetched a non-empty first page. *)
Lemma refreshed_list (d : Page) (s : State) :
  currentOffset s = 0 → isRefreshing s = true → data d ≠ [] →
  loadedExecutions (step (RefreshResolved (Some d)) s) = data d.
Proof.
  intros H0 Hr Hd. rewrite step_RefreshResolved, settle_bodies. simpl.
  rewrite Hr. unfold refreshFinish.
  assert (Hlen : 0 < length (data d)) by (destruct (data d); simpl; [done|lia]).
  rewrite bool_decide_eq_true_2 by done.
  by rewrite bodies_quiet.
Qed.

(** What a page arriving at the load-more observer can do to the list and
    the total of a state at rest: rows are added at the end only, and the
    total is not touched. *)
Lemma arrival_appends (d : Page) (s : State) :
  atRest s →
  loadedExecutions s `prefix_of` loadedExecutions (step (MorePageArrives d) s) ∧
  totalExecutions (step (MorePageArrives d) s) = totalExecutions s.
Proof.
  intros Hs. split.
  - rewrite (arrival_loaded d s Hs). case_bool_decide; [|done].
    apply appendNew_prefix.
  - rewrite step_MorePageArrives, settle_bodies. simpl.
    rewrite (arrival_bodies d s Hs). case_bool_decide; [done|].
    by destruct (appendEffect_frame (withMoreQuery (Some d) false s))
      as (_ & _ & _ & _ & _ & ->).
Qed.

(** C3, as amended. Take any state in which the refresh button is enabled,
    press it, and let the refetch resolve with [result].  A stale load-more
    page that reaches the component while the cursor is still at 0 -- before
    the refetch resolves or after it, but before another [loadMore] is
    accepted -- is discarded: the list, the total, the cursor, [hasMore] and
    the loading flag are exactly as they are without it, and when the
    refetch brought rows the list is exactly the refreshed first page.  At
    any time of any run, a page arriving for load-more adds rows after the
    rows shown, never ahead of them, and leaves the total alone. *)
Theorem C3_stale_page_after_refresh
    (s : State) (stale : Page) (result : option Page) :
  isRefreshing s = false →
  let base := runFrom s [RefreshClicked; RefreshResolved result] in
  let during :=
    runFrom s [RefreshClicked; MorePageArrives stale; RefreshResolved result] in
  let after :=
    runFrom s [RefreshClicked; RefreshResolved result; MorePageArrives stale] in
  view (runFrom s [RefreshClicked; MorePageArrives stale])
    = view (runFrom s [RefreshClicked]) ∧
  view during = view base ∧
  view after = view base ∧
  (∀ fresh, result = Some fresh → data fresh ≠ [] →
     loadedExecutions base = data fresh ∧
     loadedExecutions during = data fresh ∧
     loadedExecutions after = data fresh) ∧
  (∀ trace d,
     loadedExecutions (run trace)
       `prefix_of` loadedExecutions (step (MorePageArrives d) (run trace)) ∧
     totalExecutions (step (MorePageArrives d) (run trace))
       = totalExecutions (run trace)).
Proof.
  intros Hr base during after. subst base during after.
  change (runFrom s [RefreshClicked]) with (step RefreshClicked s).
  change (runFrom s [RefreshClicked; MorePageArrives stale])
    with (step (MorePageArrives stale) (step RefreshClicked s)).
  change (runFrom s [RefreshClicked; RefreshResolved result])
    with (step (RefreshResolved result) (step RefreshClicked s)).
  change (runFrom s [RefreshClicked; MorePageArrives stale; RefreshResolved result])
    with (step (RefreshResolved result)
            (step (MorePageArrives stale) (step RefreshClicked s))).
  change (runFrom s [RefreshClicked; RefreshResolved result; MorePageArrives stale])
    with (step (MorePageArrives stale)
            (step (RefreshResolved result) (step RefreshClicked s))).
  pose proof (step_atRest RefreshClicked s) as Hrest1.
  destruct (step_RefreshClicked s Hr) as [H0 Hing].
  pose proof (stale_arrival stale _ H0 Hrest1) as Hstale1.
  assert (H0' : currentOffset (step (MorePageArrives stale)
                                 (step RefreshClicked s)) = 0).
  { rewrite step_offset. exact H0. }
  pose proof (step_RefreshResolved_sameButMoreQuery result _ _ H0' Hstale1)
    as Hduring.
  assert (H0b : currentOffset (step (RefreshResolved result)
                                 (step RefreshClicked s)) = 0).
  { rewrite step_offset. exact H0. }
  pose proof (stale_arrival stale _ H0b (step_atRest _ _)) as Hafter.
  apply sameButMoreQuery_view in Hstale1, Hduring, Hafter.
  split; [exact Hstale1|]. split; [exact Hduring|]. split; [exact Hafter|].
  split.
  - intros fresh Hres Hne. subst result.
    pose proof (refreshed_list fresh _ H0 Hing Hne) as Hlist.
    unfold view in Hduring, Hafter.
    split; [exact Hlist|]. split; congruence.
  - intros trace d. apply arrival_appends, run_atRest.
Qed.

(** The claim of C3 fails once [loadMore] has been accepted again after the
    refresh.  The first page of 20 arrives, [loadMore] asks for offset 20,
    the list is refreshed before the answer is there, and [loadMore] is
    accepted again; when the answer to the request made before the refresh
    arrives with 3 rows, its rows are appended and [hasMore] is recomputed
    from it. *)
Lemma C3_counterexample :
  let trace := [InitialPageArrives (samplePage 0 20); LoadMore;
                RefreshClicked; RefreshResolved (Some (samplePage 0 20));
                LoadMore] in
  let stale := samplePage 20 3 in
  hasMore (run trace) = true ∧
  length (loadedExecutions (run trace)) = 20 ∧
  hasMore (run (trace ++ [MorePageArrives stale])) = false ∧
  length (loadedExecutions (run (trace ++ [MorePageArrives stale]))) = 23 ∧
  view (run (trace ++ [MorePageArrives stale])) ≠ view (run trace).
Proof. vm_compute. repeat split; discriminate. Qed.

End LoaderProperties.

(** *** The loader on sample data *)

Lemma samplePage_distinct (from count : nat) :
  Loader.distinctPage (Loader.samplePage from count).
Proof.
  unfold Loader.distinctPage, Loader.ids.
  change (Loader.data (Loader.samplePage from count))
    with (Loader.sampleExecution <$> seq from count).
  rewrite <- list_fmap_compose. apply NoDup_fmap_2_strong; [|apply NoDup_seq].
  intros m n _ _ Heq. simpl in Heq.
  apply (inj (String.app "exec-")) in Heq. by apply (inj pretty) in Heq.
Qed.

Lemma C1_no_duplicate_ids_witness :
  let trace := [Loader.InitialPageArrives (Loader.samplePage 0 20);
                Loader.LoadMore;
                Loader.MorePageArrives (Loader.samplePage 15 20)] in
  length (Loader.loadedExecutions (Loader.run trace)) = 35 ∧
  NoDup (Loader.ids (Loader.loadedExecutions (Loader.run trace))).
Proof.
  split; [vm_compute; reflexivity|].
  refine (proj1 (C1_no_duplicate_ids _ _)).
  constructor; [apply samplePage_distinct|].
  constructor; [exact I|].
  constructor; [apply samplePage_distinct|]. constructor.
Defined.


Lemma C3_stale_page_after_refresh_witness :
  let s := Loader.run [Loader.InitialPageArrives (Loader.samplePage 0 20);
                       Loader.LoadMore] in
  Loader.loadedExecutions
    (Loader.runFrom s [Loader.RefreshClicked;
                       Loader.MorePageArrives (Loader.samplePage 20 20);
                       Loader.RefreshResolved (Some (Loader.samplePage 3 20))])
  = Loader.data (Loader.samplePage 3 20).
Proof.
  intros s.
  assert (Hr : Loader.isRefreshing s = false) by (vm_compute; reflexivity).
  destruct (C3_stale_page_after_refresh s (Loader.samplePage 20 20)
              (Some (Loader.samplePage 3 20)) Hr) as (_ & _ & _ & H & _).
  destruct (H _ eq_refl) as (_ & Hduring & _); [|exact Hduring].
  vm_compute. discriminate.
Defined.

Lemma C4_loadMore_completion_witness :
  let trace := [Loader.InitialPageArrives (Loader.samplePage 0 20);
                Loader.LoadMore] in
  Loader.hasMore (Loader.run trace) = true ∧
  Loader.hasMore
    (Loader.step (Loader.MorePageArrives
                    {| Loader.data := []; Loader.meta_total := 20 |})
       (Loader.run trace)) = false.
Proof.
  split; [vm_compute; reflexivity|].
  refine (proj1 (proj2 (proj2
    (C4_loadMore_completion _ {| Loader.data := []; Loader.meta_total := 20 |} _ _)))
    eq_refl).
  - vm_compute. lia.
  - vm_compute. discriminate.
Defined.
(** * Further properties of the code *)

(** ** Cron expressions: the parser, the validator and the describer *)
Section CronCoverage.

Import Cron.

Lemma spaceFree_rev_app (r acc : string) :
  spaceFree (String.rev_app r acc) = spaceFree r && spaceFree acc.
Proof.
  revert acc. induction r as [|a r IH]; intros acc; simpl; [done|].
  rewrite IH. simpl. destruct (Ascii.is_space a); simpl.
  - by rewrite andb_false_r.
  - done.
Qed.

Lemma rev_app_nonempty (r acc : string) : acc ≠ "" → String.rev_app r acc ≠ "".
Proof.
  revert acc. induction r as [|a r IH]; intros acc Hacc; simpl; [done|].
  by apply IH.
Qed.

Lemma rev_token (r : string) :
  r ≠ "" ∧ spaceFree r = true →
  String.rev r ≠ "" ∧ spaceFree (String.rev r) = true.
Proof.
  intros [Hne Hfree]. unfold String.rev. split.
  - destruct r as [|b r]; [by destruct Hne|]. simpl. by apply rev_app_nonempty.
  - by rewrite spaceFree_rev_app, Hfree.
Qed.

Lemma words_go_tokens (s : string) (cur : option string) :
  (∀ r, cur = Some r → r ≠ "" ∧ spaceFree r = true) →
  Forall (λ w, w ≠ "" ∧ spaceFree w = true) (String.words_go cur s).
Proof.
  revert cur. induction s as [|a s IH]; intros cur Hcur; simpl.
  - destruct cur as [r|]; simpl; [|constructor].
    constructor; [|constructor]. by apply rev_token, Hcur.
  - destruct (Ascii.is_space a) eqn:Ha.
    + apply Forall_app. split; [|by apply IH].
      destruct cur as [r|]; simpl; [|constructor].
      constructor; [|constructor]. by apply rev_token, Hcur.
    + apply IH. intros r [= <-]. split.
      * by destruct cur.
      * destruct cur as [r|]; simpl; rewrite Ha; simpl; [|done].
        by destruct (Hcur r eq_refl).
Qed.

(** A token is not empty and holds no white space. *)
Lemma words_tokens (s : string) :
  Forall (λ w, w ≠ "" ∧ spaceFree w = true) (String.words s).
Proof. apply words_go_tokens. done. Qed.

(** X1. [parseCronExpression] succeeds exactly on the inputs of five or six
    white-space separated tokens, and then returns no error and the tokens
    themselves as fields, in the order of the expression: the [second]
    field is absent for five tokens and is the first token for six.
    Otherwise it returns no fields and the field-count message. *)
Theorem X1_parse_fields_are_tokens (cron : string) :
  match fields (parseCronExpression cron) with
  | Some f =>
      parse_error (parseCronExpression cron) = None ∧
      fieldList f = String.words cron ∧
      (second f = None ↔ length (String.words cron) = 5) ∧
      (is_Some (second f) ↔ length (String.words cron) = 6)
  | None =>
      parse_error (parseCronExpression cron) = Some field_count_message ∧
      length (String.words cron) ≠ 5 ∧ length (String.words cron) ≠ 6
  end.
Proof.
  unfold parseCronExpression. rewrite split_trim_words.
  destruct (String.words cron) as [|a [|b [|c [|d [|e [|f [|g l]]]]]]]; simpl;
    (split; [done|split; done]).
Qed.

(** X2. Whatever white space surrounds or separates the tokens of the
    input, no field of a successful parse is empty and none contains a
    white-space character. *)
Theorem X2_parse_fields_clean (cron : string) (f : CronField) :
  fields (parseCronExpression cron) = Some f →
  Forall (λ w, w ≠ "" ∧ spaceFree w = true) (fieldList f).
Proof.
  pose proof (words_tokens cron) as Htokens. revert Htokens.
  unfold parseCronExpression. rewrite split_trim_words.
  destruct (String.words cron) as [|a [|b [|c [|d [|e [|g [|h l]]]]]]]; simpl;
    intros Htokens [= <-]; exact Htokens.
Qed.

Context `{CronEnv}.

Lemma or_else_nonempty (x : option string) (dflt : string) :
  dflt ≠ "" → Js.or_else x dflt ≠ "".
Proof. intros Hd. destruct x as [[|a m]|]; done. Qed.

Lemma hasSeconds_words (cron : string) :
  bool_decide (length (Js.split_ws (Js.trim cron)) = 6) =
  bool_decide (length (String.words cron) = 6).
Proof. rewrite split_trim_length. apply bool_decide_ext. lia. Qed.

(** The validator either accepts, without an error, or rejects with a
    message that is not empty. *)
Lemma validate_cases (cron : string) :
  let v := validateCronExpression cron in
  (v_isValid v = true ∧ v_error v = None) ∨
  (v_isValid v = false ∧ ∃ message, v_error v = Some message ∧ message ≠ "").
Proof.
  unfold validateCronExpression.
  destruct (CronExpressionParser_parse cron None _) as [it|thrown]; simpl.
  - by left.
  - right. split; [done|]. eexists. split; [done|]. by apply or_else_nonempty.
Qed.

(** X3. [validateCronExpression] accepts an expression exactly when the
    cron parser does, called with the seconds option exactly when the
    expression has six tokens.  It reports an error exactly when it
    rejects, and the message is never empty: it is what the parser threw,
    or "Invalid cron expression" when that has no message. *)
Theorem X3_validate_verdict (cron : string) :
  let v := validateCronExpression cron in
  let seconds := bool_decide (length (String.words cron) = 6) in
  (v_isValid v = true ↔
   ∃ interval, CronExpressionParser_parse cron None seconds = inl interval) ∧
  (v_isValid v = true ↔ v_error v = None) ∧
  (∀ message, v_error v = Some message →
     message ≠ "" ∧
     ∃ thrown, CronExpressionParser_parse cron None seconds = inr thrown ∧
               message = Js.or_else thrown "Invalid cron expression").
Proof.
  intros v seconds. subst v seconds. unfold validateCronExpression.
  rewrite hasSeconds_words.
  destruct (CronExpressionParser_parse cron None _) as [it|thrown]; simpl.
  - split; [split; [by eauto|done]|]. split; [done|]. intros message [=].
  - split; [split; [done|by intros [? [=]]]|]. split; [done|].
    intros message [= <-]. split; [by apply or_else_nonempty|by eauto].
Qed.

(** X4. [describeCronExpression] reports the verdict and the error of
    [validateCronExpression].  For a rejected expression the description
    is empty, there are no next runs and the error message is not empty;
    for an accepted one the next runs are those of [generateNextRuns], with
    the seconds option for six tokens, and there are five at most. *)
Theorem X4_describe_follows_validation (cron : string) (now : Instant) :
  let d := describeCronExpression cron now in
  let v := validateCronExpression cron in
  isValid d = v_isValid v ∧
  Cron.error d = v_error v ∧
  (isValid d = false →
     description d = "" ∧ nextRuns d = [] ∧
     ∃ message, Cron.error d = Some message ∧ message ≠ "") ∧
  (isValid d = true →
     nextRuns d =
       generateNextRuns cron (bool_decide (length (String.words cron) = 6)) now ∧
     length (nextRuns d) ≤ 5).
Proof.
  intros d v. subst d v. unfold describeCronExpression.
  rewrite hasSeconds_words.
  destruct (validate_cases cron) as [[Hv He]|[Hv (message & He & Hne)]];
    cbv zeta in Hv, He; rewrite Hv; simpl.
  - split; [done|]. split; [done|]. split; [done|].
    intros _. split; [done|].
    unfold generateNextRuns, projectRuns. rewrite length_fmap.
    destruct (CronExpressionParser_parse cron (Some now) _);
      [apply nextDates_length|simpl; lia].
  - split; [done|]. split; [done|]. split; [|done]. intros _.
    split; [done|]. split; [done|]. by exists message.
Qed.

(** X5. The description of an accepted expression never fails.  With six
    tokens of which the first is ["*"] it is "Every second", whatever the
    other fields are and whether [cronstrue] can render them; with six
    tokens and another first token, it is "Valid cron expression" when
    [cronstrue] throws on the remaining five tokens joined by single
    blanks; with any other number of tokens it is what [cronstrue] makes of
    the expression as typed, or "Valid cron expression" when it throws. *)
Theorem X5_description_fallback (cron : string) (now : Instant) :
  v_isValid (validateCronExpression cron) = true →
  let d := description (describeCronExpression cron now) in
  let tokens := String.words cron in
  (length tokens = 6 → head tokens = Some "*" → d = "Every second") ∧
  (length tokens = 6 → head tokens ≠ Some "*" →
   cronstrue_toString (Js.join " " (tail tokens)) = None →
   d = "Valid cron expression") ∧
  (length tokens ≠ 6 →
   d = default "Valid cron expression" (cronstrue_toString cron)).
Proof.
  intros Hv d tokens. subst d tokens.
  rewrite (description_of_valid _ _ Hv), split_trim_words.
  destruct (String.words cron) as [|a [|b [|c [|d [|e [|f [|g l]]]]]]] eqn:Hw;
    simpl length.
  all: split; [intros Hlen; try (exfalso; lia)|
       split; [intros Hlen; try (exfalso; lia)|intros Hlen; try (exfalso; lia)]].
  all: try reflexivity.
  - intros [= ->]. reflexivity.
  - intros Hhead Hnone. unfold describeParts.
    rewrite bool_decide_eq_true_2 by done.
    change (tail [a; b; c; d; e; f]) with [b; c; d; e; f] in *.
    change (default "" (head [a; b; c; d; e; f])) with a. cbv zeta.
    rewrite Hnone.
    rewrite bool_decide_eq_false_2 by (intros ->; by apply Hhead).
    destruct (Js.startsWith "*/" a); [done|]. by case_bool_decide.
Qed.

End CronCoverage.

(** X6. Every preset of [CRON_EXAMPLES] is parsed without error as an
    expression with a seconds field, its fields being its tokens; no two
    presets share an expression, and no two share a label. *)
Theorem X6_presets_have_seconds :
  Forall (λ p, ∃ f s,
            Cron.parseCronExpression (Cron.expression p) =
              {| Cron.fields := Some f; Cron.parse_error := None |} ∧
            Cron.second f = Some s ∧
            Cron.fieldList f = String.words (Cron.expression p))
         Cron.CRON_EXAMPLES ∧
  NoDup (Cron.expression <$> Cron.CRON_EXAMPLES) ∧
  NoDup (Cron.preset_label <$> Cron.CRON_EXAMPLES).
Proof.
  split; [|split].
  - unfold Cron.CRON_EXAMPLES.
    repeat (constructor;
            [eexists _, _; vm_compute; split; [reflexivity|split; reflexivity]|]).
    constructor.
  - apply (bool_decide_unpack _). by vm_compute.
  - apply (bool_decide_unpack _). by vm_compute.
Qed.

Lemma X2_parse_fields_clean_witness :
  Forall (λ w, w ≠ "" ∧ Cron.spaceFree w = true) ["0"; "9"; "*"; "*"; "1"].
Proof.
  apply (X2_parse_fields_clean "  0 9  * *   1 "
           {| Cron.second := None; Cron.minute := "0"; Cron.hour := "9";
              Cron.dayOfMonth := "*"; Cron.month := "*";
              Cron.dayOfWeek := "1" |}).
  vm_compute. reflexivity.
Defined.

Lemma X3_validate_verdict_witness :
  ∃ message,
    Cron.v_error (@Cron.validateCronExpression Cron.sampleEnv "1 2 3 4 5 6 7")
      = Some message ∧ message ≠ "".
Proof.
  exists "Invalid cron expression, too many fields".
  split; [vm_compute; reflexivity|].
  refine (proj1 (proj2 (proj2
    (@X3_validate_verdict Cron.sampleEnv "1 2 3 4 5 6 7")) _ _)).
  vm_compute. reflexivity.
Defined.

Lemma X4_describe_follows_validation_witness :
  Cron.description (@Cron.describeCronExpression Cron.sampleEnv "1 2 3 4 5 6 7" 0%Z)
    = "" ∧
  Cron.nextRuns (@Cron.describeCronExpression Cron.sampleEnv "1 2 3 4 5 6 7" 0%Z)
    = [].
Proof.
  destruct (@X4_describe_follows_validation Cron.sampleEnv "1 2 3 4 5 6 7" 0%Z)
    as (_ & _ & Hbad & _).
  destruct Hbad as (Hd & Hn & _); [vm_compute; reflexivity|].
  exact (conj Hd Hn).
Defined.

Lemma X5_description_fallback_witness :
  Cron.description (@Cron.describeCronExpression Cron.sampleEnv "* 0 12 * * *" 0%Z)
    = "Every second".
Proof.
  refine (proj1 (@X5_description_fallback Cron.sampleEnv "* 0 12 * * *" 0%Z _) _ _).
  - vm_compute. reflexivity.
  - vm_compute. reflexivity.
  - vm_compute. reflexivity.
Defined.

(** ** The execution list, the chart and the summary of the details page *)
Section HistoryCoverage.

Context `{JsNumber}.

Lemma newest_first_total : Total Details.newest_first.
Proof. intros a b. unfold Details.newest_first. lia. Qed.

Lemma newest_first_trans : Transitive Details.newest_first.
Proof. intros a b c. unfold Details.newest_first. lia. Qed.

Lemma executions_Permutation (l : list JobExecution) :
  Details.executions l ≡ₚ Details.transformExecution <$> l.
Proof.
  unfold Details.executions. case_bool_decide as Hl.
  - by destruct l.
  - apply merge_sort_Permutation.
Qed.

Lemma executions_StronglySorted (l : list JobExecution) :
  StronglySorted Details.newest_first (Details.executions l).
Proof.
  unfold Details.executions. case_bool_decide.
  - constructor.
  - apply (@StronglySorted_merge_sort _ _ _ newest_first_trans newest_first_total).
Qed.

(** X7. The rows shown are the loaded records, each transformed, none
    lost and none added (so the ids shown are the ids loaded), in an
    order in which no row is newer than a row above it. *)
Theorem X7_executions_newest_first (l : list JobExecution) :
  let shown := Details.executions l in
  shown ≡ₚ Details.transformExecution <$> l ∧
  Details.x_id <$> shown ≡ₚ id <$> l ∧
  (∀ i j a b, i ≤ j → shown !! i = Some a → shown !! j = Some b →
     (Details.timestamp b ≤ Details.timestamp a)%Z).
Proof.
  intros shown. subst shown. split; [apply executions_Permutation|]. split.
  - rewrite executions_Permutation, <- list_fmap_compose. done.
  - pose proof (executions_StronglySorted l) as Hs.
    revert Hs. generalize (Details.executions l) as ex. clear l.
    intros ex Hs. induction Hs as [|x ex Hs IH Hall]; intros i j a b Hij Ha Hb.
    + by rewrite lookup_nil in Ha.
    + destruct i as [|i], j as [|j]; simpl in *; simplify_eq.
      * lia.
      * rewrite Forall_forall in Hall. apply (Hall b).
        by apply list_elem_of_lookup_2 in Hb.
      * lia.
      * apply (IH i j); [lia|done..].
Qed.

(** X8. The chart has one bar for each of the first 30 rows and no other:
    [min (number of records) 30] bars.  Every charted execution is at
    least as recent as every execution left out.  Bar [i] carries the
    status code of row [i], its duration (0 when it has none), and the
    class "success" exactly when the code is in [200,300). *)
Theorem X8_chart_shows_newest (l : list JobExecution) :
  let shown := Details.executions l in
  length (Details.chartData shown) = length l `min` 30 ∧
  (∀ a b, a ∈ take 30 shown → b ∈ drop 30 shown →
     (Details.timestamp b ≤ Details.timestamp a)%Z) ∧
  (∀ i bar, Details.chartData shown !! i = Some bar →
     ∃ e, shown !! i = Some e ∧ i < 30 ∧
          Details.bar_statusCode bar = Details.statusCode e ∧
          Details.bar_duration bar = default 0%Z (Details.duration e) ∧
          (Details.bar_status bar = "success" ↔
           (200 ≤ Details.statusCode e < 300)%Z)).
Proof.
  intros shown. subst shown. split; [|split].
  - unfold Details.chartData. rewrite length_fmap, length_take.
    rewrite executions_length. lia.
  - intros a b Ha Hb.
    pose proof (executions_StronglySorted l) as Hs.
    rewrite <- (take_drop 30 (Details.executions l)) in Hs.
    apply (StronglySorted_app_1_elem_of _ _ _ a b Hs Ha Hb).
  - intros i bar Hbar. unfold Details.chartData in Hbar.
    rewrite list_lookup_fmap in Hbar.
    destruct (take 30 (Details.executions l) !! i) as [e|] eqn:He; [|done].
    simpl in Hbar. injection Hbar as <-.
    apply lookup_take_Some in He as [He Hi].
    exists e. split; [done|]. split; [done|]. split; [done|]. split; [done|].
    unfold Details.chartBar. simpl. rewrite <- is2xx_spec.
    destruct (is2xx (Details.statusCode e)); split; done.
Qed.

Lemma foldl_add (l : list Z) (acc : Z) :
  foldl Z.add acc l = (acc + foldr Z.add 0 l)%Z.
Proof.
  revert acc. induction l as [|x l IH]; intros acc; simpl; [lia|].
  rewrite IH. lia.
Qed.

Lemma sumZ_Permutation (l k : list Z) : l ≡ₚ k → Details.sumZ l = Details.sumZ k.
Proof.
  unfold Details.sumZ. rewrite !foldl_add.
  induction 1; simpl in *; lia.
Qed.

(** The summary does not depend on the order of the rows. *)
Lemma summaryStats_Permutation (shown shown' : list Details.Execution) :
  shown ≡ₚ shown' → Details.summaryStats shown = Details.summaryStats shown'.
Proof.
  intros Hp. unfold Details.summaryStats.
  assert (Hs : length (filter (λ e, is2xx (Details.statusCode e) = true) shown) =
               length (filter (λ e, is2xx (Details.statusCode e) = true) shown'))
    by by rewrite Hp.
  assert (Hd : (filter (λ e, Details.duration e ≠ None) shown) ≡ₚ
               (filter (λ e, Details.duration e ≠ None) shown'))
    by by rewrite Hp.
  assert (Hsum : Details.sumZ ((λ e, default 0%Z (Details.duration e)) <$>
                      filter (λ e, Details.duration e ≠ None) shown) =
                 Details.sumZ ((λ e, default 0%Z (Details.duration e)) <$>
                      filter (λ e, Details.duration e ≠ None) shown')).
  { apply sumZ_Permutation. by rewrite Hd. }
  assert (Hl : length shown = length shown') by by rewrite Hp.
  assert (Hdl : length (filter (λ e, Details.duration e ≠ None) shown) =
                length (filter (λ e, Details.duration e ≠ None) shown'))
    by by rewrite Hd.
  cbv zeta. by rewrite Hs, Hsum, Hl, Hdl.
Qed.

(** X9. The summary of the rows shown is the summary of the loaded
    records in any order: sorting changes none of its five numbers.  The
    total is the number of loaded records, every record is counted either
    as a success or as an error, and with nothing loaded all five numbers
    are 0 (no mean or rate of an empty list is computed). *)
Theorem X9_summary_counts (l : list JobExecution) :
  let stats := Details.summaryStats (Details.executions l) in
  stats = Details.summaryStats (Details.transformExecution <$> l) ∧
  Details.total stats = length l ∧
  Details.success stats + Details.error_count stats = Details.total stats ∧
  (l = [] →
     stats = {| Details.total := 0; Details.success := 0;
                Details.error_count := 0; Details.avgDuration := 0;
                Details.successRate := 0 |}).
Proof.
  intros stats. subst stats. split; [|split; [|split]].
  - apply summaryStats_Permutation, executions_Permutation.
  - simpl. apply executions_length.
  - unfold Details.summaryStats. simpl.
    pose proof (length_filter (λ e, is2xx (Details.statusCode e) = true)
                  (Details.executions l)). lia.
  - by intros ->.
Qed.

Lemma filter_filter_same {A} (P : A → Prop) `{∀ x, Decision (P x)} (l : list A) :
  filter P (filter P l) = filter P l.
Proof.
  induction l as [|x l IH]; [done|]. rewrite filter_cons.
  destruct (decide (P x)) as [Hx|Hx]; [|done].
  rewrite filter_cons, decide_True by done. by rewrite IH.
Qed.

(** X10. The average duration of the paginated page is taken over the
    executions that have a duration: it is the rounded mean of their
    durations, 0 when there is none, and a row without a duration (a
    queued execution, say) leaves it as it is. *)
Theorem X10_average_skips_missing_durations (shown : list Details.Execution) :
  let timed := filter (λ e, Details.duration e ≠ None) shown in
  Details.avgDuration (Details.summaryStats shown) =
    Details.avgDuration (Details.summaryStats timed) ∧
  Details.avgDuration (Details.summaryStats shown) =
    (if bool_decide (timed = []) then 0%Z
     else round_mean (Details.sumZ (default 0%Z ∘ Details.duration <$> timed))
                     (length timed)) ∧
  (∀ e, Details.duration e = None →
     Details.avgDuration (Details.summaryStats (e :: shown)) =
     Details.avgDuration (Details.summaryStats shown)).
Proof.
  intros timed. subst timed. unfold Details.summaryStats. simpl.
  split; [by rewrite filter_filter_same|]. split.
  - destruct (filter _ shown) as [|e timed] eqn:Ht; [done|].
    rewrite bool_decide_eq_true_2 by (simpl; lia).
    by rewrite bool_decide_eq_false_2.
  - intros e He. rewrite filter_cons. rewrite decide_False; [done|].
    intros Hne. by apply Hne.
Qed.



End HistoryCoverage.

(** ** The label of the status badge *)
Section BadgeCoverage.

Lemma deriveStatusCode_zero (e : JobExecution) :
  deriveStatusCode e = 0%Z ↔
  (response_code e = None ∨ response_code e = Some 0%Z) ∧
  status e ≠ "success" ∧ status e ≠ "failure".
Proof.
  unfold deriveStatusCode.
  destruct (response_code e) as [c|].
  - case_bool_decide as Hc.
    + subst c. repeat case_bool_decide; split; try done; try (intros (_ & ? & ?); done).
      intros _. auto.
    + split; [intros ->; done|]. intros ([[=]|[= ->]] & _). done.
  - repeat case_bool_decide; split; try done; try (intros (_ & ? & ?); done).
    intros _. auto.
Qed.

Lemma getStatusBadge_label (s : string) (c : Z) :
  label (Details.getStatusBadge s c) =
  if bool_decide (s = "queued") then Text "Queued"
  else if bool_decide (s = "running") then Text "Running"
  else if bool_decide (s = "timeout") then Text "Timeout"
  else if bool_decide (c = 0%Z) then Text "Error" else Code c.
Proof.
  unfold Details.getStatusBadge, Details.codeOrError.
  repeat case_bool_decide; try done.
  - subst c. done.
  - destruct (is2xx c); [done|]. destruct (is4xx c); done.
Qed.

Lemma x_status_cases (e : JobExecution) :
  let s := Details.x_status (Details.transformExecution e) in
  (s = "queued" ↔ status e = "queued") ∧
  (s = "running" ↔ status e = "running") ∧
  (s = "timeout" ↔ status e = "timed_out").
Proof.
  simpl. repeat case_bool_decide; repeat split; intros; congruence.
Qed.

(** X12. What the badge of a row says.  In the paginated page it reads
    "Error" exactly when the stored status is none of success, failure,
    queued, running and timed_out and the record has no response code (or
    the code 0); it shows a number exactly when the status is not queued,
    running or timed_out and the derived code is not 0, and the number is
    then the derived code.  The older page always shows the derived code,
    the number 0 included. *)
Theorem X12_badge_label (e : JobExecution) :
  let badge := Details.badgeOf (Details.transformExecution e) in
  let byStatus :=
    status e = "queued" ∨ status e = "running" ∨ status e = "timed_out" in
  (label badge = Text "Error" ↔
     ¬ byStatus ∧ status e ≠ "success" ∧ status e ≠ "failure" ∧
     (response_code e = None ∨ response_code e = Some 0%Z)) ∧
  (∀ c, label badge = Code c ↔
     ¬ byStatus ∧ c = deriveStatusCode e ∧ c ≠ 0%Z) ∧
  label (Legacy.badgeOf (Legacy.transformExecution e)) =
    Code (deriveStatusCode e).
Proof.
  intros badge byStatus. subst badge byStatus.
  unfold Details.badgeOf. rewrite getStatusBadge_label.
  destruct (x_status_cases e) as (Hq & Hr & Ht). cbv zeta in Hq, Hr, Ht.
  change (Details.statusCode (Details.transformExecution e))
    with (deriveStatusCode e).
  pose proof (deriveStatusCode_zero e) as Hz.
  set (shown := Details.x_status (Details.transformExecution e)) in *.
  clearbody shown.
  split; [|split].
  - case_bool_decide as H1; [split; [done|tauto]|].
    case_bool_decide as H2; [split; [done|tauto]|].
    case_bool_decide as H3; [split; [done|tauto]|].
    case_bool_decide as H4; [split; [tauto|done]|].
    split; [done|]. intros (_ & Hs & Hf & Hc). tauto.
  - intros c.
    case_bool_decide as H1; [split; [done|tauto]|].
    case_bool_decide as H2; [split; [done|tauto]|].
    case_bool_decide as H3; [split; [done|tauto]|].
    case_bool_decide as H4.
    + split; [done|]. intros (_ & -> & Hc). done.
    + split.
      * intros [= <-]. tauto.
      * intros (_ & -> & _). done.
  - unfold Legacy.badgeOf, Legacy.getStatusBadge. simpl.
    fold (deriveStatusCode e).
    destruct (is2xx _); [done|]. by destruct (is4xx _).
Qed.

End BadgeCoverage.

Lemma X7_executions_newest_first_witness :
  (Details.timestamp (Details.transformExecution (Loader.sampleExecution 1))
   ≤ Details.timestamp (Details.transformExecution (Loader.sampleExecution 3)))%Z.
Proof.
  refine (proj2 (proj2 (X7_executions_newest_first
                          (Loader.sampleExecution <$> [3; 1; 2]))) 0 2 _ _ _ _ _).
  - lia.
  - vm_compute. reflexivity.
  - vm_compute. reflexivity.
Defined.

Lemma X8_chart_shows_newest_witness :
  (Details.timestamp (Details.transformExecution (Loader.sampleExecution 0))
   ≤ Details.timestamp (Details.transformExecution (Loader.sampleExecution 31)))%Z.
Proof.
  refine (proj1 (proj2 (X8_chart_shows_newest
                          (Loader.data (Loader.samplePage 0 32)))) _ _ _ _).
  - apply (list_elem_of_lookup_2 _ 0). vm_compute. reflexivity.
  - apply (list_elem_of_lookup_2 _ 1). vm_compute. reflexivity.
Defined.

Lemma X9_summary_counts_witness :
  @Details.summaryStats
    {| round_mean := λ s _, s; round_percent := λ _ _, 0%Z |}
    (Details.executions []) =
  {| Details.total := 0; Details.success := 0; Details.error_count := 0;
     Details.avgDuration := 0; Details.successRate := 0 |}.
Proof.
  exact (proj2 (proj2 (proj2
    (@X9_summary_counts
       {| round_mean := λ s _, s; round_percent := λ _ _, 0%Z |} []))) eq_refl).
Defined.

Lemma X10_average_skips_missing_durations_witness :
  let number := {| round_mean := λ s n, (s / Z.of_nat n)%Z;
                   round_percent := λ _ _, 0%Z |} in
  let shown := Details.transformExecution <$> Loader.data (Loader.samplePage 0 3) in
  Details.avgDuration
    (@Details.summaryStats number
       (Details.transformExecution queuedExecution :: shown)) =
  Details.avgDuration (@Details.summaryStats number shown).
Proof.
  intros number shown.
  exact (proj2 (proj2 (@X10_average_skips_missing_durations number shown))
           (Details.transformExecution queuedExecution) eq_refl).
Defined.


(** ** The loader: first page, scrolling, refresh and change of id *)
Section LoaderCoverage.

Import Loader.

Lemma filter_none {A} (P : A → Prop) `{∀ x, Decision (P x)} (l : list A) :
  Forall (λ x, ¬ P x) l → filter P l = [].
Proof.
  induction 1 as [|x l Hx _ IH]; [done|]. by rewrite filter_cons_False.
Qed.

(** X13. The updater of the append effect keeps the rows shown, in their
    order, in front; what it adds are exactly the records of the page
    whose id is not shown yet, so every id of the page is shown
    afterwards; a page appended twice is appended once; and a page that
    brings no new id changes nothing. *)
Theorem X13_appendNew_spec (page prev : list JobExecution) :
  prev `prefix_of` appendNew page prev ∧
  (∀ e, e ∈ appendNew page prev ↔ e ∈ prev ∨ (e ∈ page ∧ id e ∉ ids prev)) ∧
  (∀ e, e ∈ page → id e ∈ ids (appendNew page prev)) ∧
  appendNew page (appendNew page prev) = appendNew page prev ∧
  (ids page ⊆ ids prev → appendNew page prev = prev).
Proof.
  split; [apply appendNew_prefix|]. split; [|split; [|split]].
  - intros e. unfold appendNew.
    rewrite elem_of_app, list_elem_of_filter, elem_of_list_to_set. tauto.
  - intros e He. unfold appendNew, ids. rewrite fmap_app, elem_of_app.
    destruct (decide (id e ∈ id <$> prev)) as [?|Hfresh]; [by left|right].
    apply list_elem_of_fmap_2, list_elem_of_filter.
    by rewrite elem_of_list_to_set.
  - apply appendNew_idem.
  - intros Hsub. unfold appendNew.
    rewrite filter_none; [by rewrite app_nil_r|].
    apply Forall_forall. intros e He Hfresh. apply Hfresh.
    rewrite elem_of_list_to_set. apply Hsub. by apply list_elem_of_fmap_2.
Qed.

Lemma view_rest (s : State) : view (rest s) = view s.
Proof. done. Qed.

Lemma step_InitialPageArrives (d : Page) (s : State) :
  step (InitialPageArrives d) s = rest (bodies (withExecutionsData (Some d) s)).
Proof. rewrite step_bodies. by rewrite observeMoreQuery_same. Qed.

Lemma first_page_atRest (d : Page) (s : State) :
  atRest s → currentOffset s = 0 →
  loadedExecutions s = [] ∨ isRefreshing s = true →
  executionsData s ≠ Some d →
  view (step (InitialPageArrives d) s) =
  (data d, meta_total d, 0, bool_decide (length (data d) = 20), false).
Proof.
  intros Hs H0 Hempty Hnew. rewrite step_InitialPageArrives, view_rest.
  destruct (atRest_deps s Hs) as [Hi _].
  rewrite bodies_zero by done. simpl (initDeps _). rewrite Hi.
  rewrite bool_decide_eq_false_2.
  2:{ unfold initDepsOf. simpl. intros [= Heq]. by apply Hnew. }
  rewrite (initEffect_zero _ d) by done.
  assert (Hfire : bool_decide (length (loadedExecutions
                    (withExecutionsData (Some d) s)) = 0)
                  || isRefreshing (withExecutionsData (Some d) s) = true).
  { simpl. destruct Hempty as [-> | ->]; [done|by rewrite orb_true_r]. }
  rewrite Hfire. unfold view. simpl. by rewrite H0.
Qed.

(** X14. When the first-page query delivers a page while the cursor is at
    0 and either nothing is shown or a refresh is under way, the page
    becomes the list as it is, its [meta.total] becomes the total, the
    loading flag is cleared, and [hasMore] says whether the page is full
    (20 records). *)
Theorem X14_first_page_is_shown (trace : list Event) (d : Page) :
  let s := run trace in
  currentOffset s = 0 →
  loadedExecutions s = [] ∨ isRefreshing s = true →
  executionsData s ≠ Some d →
  view (step (InitialPageArrives d) s) =
  (data d, meta_total d, 0, bool_decide (length (data d) = 20), false).
Proof. intros s. apply first_page_atRest, run_atRest. Qed.

(** X15. New data of the first-page query (a refetch in the background)
    that arrives while rows are shown and no refresh is under way, or
    while the cursor is past the first page, changes nothing on screen:
    the list, the total, the cursor, [hasMore] and the loading flag stay
    as they are, although the query now holds the new page. *)
Theorem X15_background_refetch_keeps_list (trace : list Event) (d : Page) :
  let s := run trace in
  0 < currentOffset s ∨ (loadedExecutions s ≠ [] ∧ isRefreshing s = false) →
  view (step (InitialPageArrives d) s) = view s ∧
  executionsData (step (InitialPageArrives d) s) = Some d.
Proof.
  intros s Hcase. pose proof (run_atRest trace) as Hs. fold s in Hs.
  rewrite step_InitialPageArrives. split; [rewrite view_rest|].
  2:{ simpl. by destruct (bodies_frame (withExecutionsData (Some d) s))
        as (_ & _ & -> & _). }
  assert (Hb : bodies (withExecutionsData (Some d) s) = withExecutionsData (Some d) s);
    [|by rewrite Hb].
  destruct (atRest_deps s Hs) as [Hi Ha].
  assert (Hinit : initEffect (withExecutionsData (Some d) s)
                  = withExecutionsData (Some d) s).
  { destruct Hcase as [Hpos|[Hne Hr]].
    - by apply initEffect_pos.
    - destruct (decide (currentOffset s = 0)) as [H0|];
        [|apply initEffect_pos; simpl; lia].
      rewrite (initEffect_zero _ d) by done. simpl. rewrite Hr.
      rewrite bool_decide_eq_false_2; [done|]. by destruct (loadedExecutions s). }
  unfold bodies. cbv zeta. rewrite Hinit.
  rewrite (bool_decide_eq_true_2 (appendDeps _ = _)) by exact Ha.
  by case_bool_decide.
Qed.


Lemma step_LoadMore_blocked (s : State) :
  atRest s → isLoadingMore s = true ∨ hasMore s = false →
  step LoadMore s = s.
Proof.
  intros Hs Hb. unfold step. simpl. unfold loadMore.
  rewrite (loadMore_blocked s (atRest_refsInSync s Hs)) by tauto.
  rewrite observeMoreQuery_same by done. by apply settle_at_rest.
Qed.

Lemma step_MoreFetchFails (s : State) :
  atRest s → view (step MoreFetchFails s) = view s.
Proof.
  intros Hs. rewrite step_bodies, view_rest.
  rewrite observeMoreQuery_same by done. simpl (handle _ _).
  destruct (atRest_deps s Hs) as [Hi _].
  unfold bodies. cbv zeta.
  rewrite (bool_decide_eq_true_2 (initDeps _ = _)) by exact Hi.
  case_bool_decide; [done|]. by rewrite appendEffect_none.
Qed.

Lemma step_LoadMore_accepted (s : State) :
  atRest s → loadMoreAllowed s = true →
  view (step LoadMore s) =
    (loadedExecutions s, totalExecutions s, currentOffset s + 20, hasMore s, true).
Proof.
  intros Hs Hok. rewrite step_bodies. simpl (handle _ _). unfold loadMore.
  rewrite Hok.
  set (s1 := observeMoreQuery (loadMoreOffset s)
               (setCurrentOffset (currentOffset s + 20) (setIsLoadingMore true s))).
  assert (H1 : s1 = withMoreQuery None true
             (setCurrentOffset (currentOffset s + 20) (setIsLoadingMore true s))).
  { subst s1. unfold observeMoreQuery, loadMoreOffset. simpl.
    rewrite (bool_decide_eq_true_2 (0 < currentOffset s + 20)) by lia.
    rewrite bool_decide_eq_false_2; [done|].
    case_bool_decide; [intros [=]; lia|done]. }
  assert (Hb : bodies s1 = s1).
  { assert (Hi : initEffect s1 = s1)
      by (apply initEffect_pos; rewrite H1; simpl; lia).
    assert (Ha : appendEffect s1 = s1)
      by (apply appendEffect_none; by rewrite H1).
    unfold bodies. cbv zeta. rewrite Hi.
    destruct (bool_decide (initDeps s1 = initDepsOf s1));
      destruct (bool_decide (appendDeps s1 = appendDepsOf s1)); done. }
  rewrite Hb, H1. done.
Qed.

(** X17. A call of [loadMore] that passes the guard changes neither the
    list nor the total nor [hasMore]; it sets the loading flag and moves
    the load-more query to the offset 20 further on.  A second call right
    after it does nothing. *)
Theorem X17_load_more_accepted (trace : list Event) :
  let s := run trace in
  loadMoreAllowed s = true →
  view (step LoadMore s) =
    (loadedExecutions s, totalExecutions s, currentOffset s + 20, hasMore s, true) ∧
  loadMoreOffset (step LoadMore s) = Some (currentOffset s + 20) ∧
  step LoadMore (step LoadMore s) = step LoadMore s.
Proof.
  intros s Hok. pose proof (run_atRest trace) as Hs. fold s in Hs.
  pose proof (step_LoadMore_accepted s Hs Hok) as Hv.
  split; [done|]. split.
  - unfold loadMoreOffset. rewrite step_offset, Hok.
    by rewrite bool_decide_eq_true_2 by lia.
  - apply step_LoadMore_blocked; [apply step_atRest|]. left.
    exact (f_equal snd Hv).
Qed.

(** X18. While the loading flag is set or [hasMore] is false, neither
    calls of [loadMore] nor failures of the load-more fetch change what is
    shown, in any number and order, and [loadMore] stays without effect.
    In particular a load-more fetch that fails leaves the loading flag
    set: only an arriving page, a refresh or a change of id lets the list
    load again. *)
Theorem X18_blocked_until_page_or_reset (trace more : list Event) :
  let s := run trace in
  isLoadingMore s = true ∨ hasMore s = false →
  Forall (λ e, e = LoadMore ∨ e = MoreFetchFails) more →
  view (runFrom s more) = view s ∧
  loadMore (runFrom s more) = runFrom s more.
Proof.
  intros s Hb Hmore. pose proof (run_atRest trace) as Hs. fold s in Hs.
  clearbody s. revert s Hb Hs.
  induction Hmore as [|e more He _ IH]; intros s Hb Hs; simpl.
  - split; [done|]. unfold loadMore.
    by rewrite (loadMore_blocked s (atRest_refsInSync s Hs)) by tauto.
  - assert (Hv : view (step e s) = view s).
    { destruct He as [-> | ->].
      - by rewrite step_LoadMore_blocked.
      - by apply step_MoreFetchFails. }
    rewrite <- Hv. apply IH; [|apply step_atRest].
    assert (Hh : hasMore (step e s) = hasMore s)
      by exact (f_equal (λ v, v.1.2) Hv).
    assert (Hl : isLoadingMore (step e s) = isLoadingMore s)
      by exact (f_equal snd Hv).
    by rewrite Hh, Hl.
Qed.

Lemma step_scroll (e : Event) (s : State) :
  atRest s →
  (e = LoadMore ∨ e = MoreFetchFails ∨ ∃ d, e = MorePageArrives d) →
  loadedExecutions s `prefix_of` loadedExecutions (step e s) ∧
  totalExecutions (step e s) = totalExecutions s.
Proof.
  intros Hs [-> | [-> | [d ->]]].
  - destruct (loadMoreAllowed s) eqn:Hok.
    + pose proof (step_LoadMore_accepted s Hs Hok) as Hv.
      rewrite (f_equal (λ v, v.1.1.1.1) Hv : loadedExecutions _ = _).
      by rewrite (f_equal (λ v, v.1.1.1.2) Hv : totalExecutions _ = _).
    + assert (Hstep : step LoadMore s = s); [|by rewrite Hstep].
      unfold step. simpl. unfold loadMore. rewrite Hok.
      rewrite observeMoreQuery_same by done. by apply settle_at_rest.
  - pose proof (step_MoreFetchFails s Hs) as Hv.
    rewrite (f_equal (λ v, v.1.1.1.1) Hv : loadedExecutions _ = _).
    by rewrite (f_equal (λ v, v.1.1.1.2) Hv : totalExecutions _ = _).
  - by apply arrival_appends.
Qed.

(** X19. Scrolling only appends: over any sequence of [loadMore] calls
    and of pages and failures reaching the load-more query, the rows
    shown before stay in front in their order, and the total keeps the
    value that the first page gave it. *)
Theorem X19_scrolling_only_appends (trace more : list Event) :
  let s := run trace in
  Forall (λ e, e = LoadMore ∨ e = MoreFetchFails ∨ ∃ d, e = MorePageArrives d)
         more →
  loadedExecutions s `prefix_of` loadedExecutions (runFrom s more) ∧
  totalExecutions (runFrom s more) = totalExecutions s.
Proof.
  intros s Hmore. pose proof (run_atRest trace) as Hs. fold s in Hs.
  clearbody s. revert s Hs.
  induction Hmore as [|e more He _ IH]; intros s Hs; simpl; [done|].
  destruct (step_scroll e s Hs He) as [Hp Ht].
  destruct (IH (step e s) (step_atRest e s)) as [Hp' Ht'].
  split; [by etrans|congruence].
Qed.

(** X20. A click on the refresh button while a refresh is under way does
    nothing.  Otherwise it sets the refresh flag and puts the cursor back
    to 0, and before the refetch has answered the list is already the
    first page that the query holds from before (with its total, and
    [hasMore] by its length), or empty when the query holds none. *)
Theorem X20_refresh_click (trace : list Event) :
  let s := run trace in
  let s' := step RefreshClicked s in
  (isRefreshing s = true → s' = s) ∧
  (isRefreshing s = false →
     isRefreshing s' = true ∧
     view s' =
       match executionsData s with
       | Some d => (data d, meta_total d, 0,
                    bool_decide (length (data d) = 20), false)
       | None => ([], totalExecutions s, 0, true, false)
       end).
Proof.
  intros s s'. pose proof (run_atRest trace) as Hs. fold s in Hs.
  subst s'. clearbody s. split; intros Hr.
  - unfold step. simpl. rewrite Hr.
    rewrite observeMoreQuery_same by done. by apply settle_at_rest.
  - split; [by apply step_RefreshClicked|].
    rewrite step_bodies, view_rest. simpl (handle _ _). rewrite Hr.
    set (s1 := observeMoreQuery (loadMoreOffset s) (refreshStart s)).
    assert (H1 : loadedExecutions s1 = [] ∧ totalExecutions s1 = totalExecutions s ∧
                 currentOffset s1 = 0 ∧ hasMore s1 = true ∧
                 isLoadingMore s1 = false ∧ isRefreshing s1 = true ∧
                 executionsData s1 = executionsData s ∧ initDeps s1 = initDeps s).
    { subst s1. unfold observeMoreQuery. by case_bool_decide. }
    destruct H1 as (Hl & Ht & H0 & Hm & Hlm & Hr1 & He & Hi).
    rewrite (bodies_zero s1 H0).
    destruct (atRest_deps s Hs) as [Hdeps _].
    rewrite bool_decide_eq_false_2.
    2:{ rewrite Hi, Hdeps. unfold initDepsOf. rewrite Hr1, Hr. congruence. }
    destruct (executionsData s) as [d|] eqn:Hd.
    + rewrite (initEffect_zero s1 d H0 He), Hr1, orb_true_r.
      unfold view. simpl. by rewrite H0.
    + rewrite (initEffect_none s1 He). unfold view.
      by rewrite Hl, Ht, H0, Hm, Hlm.
Qed.

End LoaderCoverage.

(** ** The query of [useJobExecutions]

    The loader above takes what the load-more observer returns from the
    events, and its effects do not read it while the cursor is at 0
    ([appendEffect_zero]); which query that observer watches is settled
    here, from the hook. *)
Section QueryCoverage.

Import JobExecutionsHook.

(** X21. The load-more call of the hook, [useJobExecutions(id, 20,
    loadMoreOffset)], is the query for the offset [currentOffset],
    whatever the cursor: at cursor 0, where [loadMoreOffset] is
    [undefined], the default value of the parameter makes it the
    first-page query itself (the same key, enabled as soon as there is an
    id), and it is a query of its own exactly when the cursor is past 0.
    The call of the older page, [useJobExecutions(id)], is the first-page
    query too. *)
Theorem X21_load_more_query_key (id : option string) (s : Loader.State) :
  loadMoreQuery id s =
    useJobExecutions id (Some 20) (Some (Loader.currentOffset s)) ∧
  enabled (loadMoreQuery id s) = truthy id ∧
  (loadMoreQuery id s = firstPageQuery id ↔ Loader.currentOffset s = 0) ∧
  (queryKey (loadMoreQuery id s) = queryKey (firstPageQuery id) ↔
   Loader.currentOffset s = 0) ∧
  legacyQuery id = firstPageQuery id.
Proof.
  unfold loadMoreQuery, firstPageQuery, legacyQuery, Loader.loadMoreOffset.
  split; [|split; [|split; [|split]]].
  - case_bool_decide as Hpos; [done|].
    assert (Loader.currentOffset s = 0) as -> by lia. done.
  - unfold useJobExecutions. simpl. by rewrite andb_true_r.
  - case_bool_decide as Hpos; simpl.
    + split; [|lia]. intros Heq. apply (f_equal queryKey) in Heq.
      simpl in Heq. injection Heq as Heq. lia.
    + split; [lia|done].
  - case_bool_decide as Hpos; simpl.
    + split; [intros [=]; lia|lia].
    + split; [lia|done].
  - done.
Qed.

(** X22. A query of [useJobExecutions] is enabled exactly when the
    webhook id is present and not empty, whatever the offset.  An enabled
    query never throws "Webhook ID is required": it sends the request for
    the executions of that id with the limit and offset of its key (20
    and 0 when they are left out). *)
Theorem X22_enabled_query_sends_request
    (webhookId : option string) (limit offset : option nat) :
  let q := useJobExecutions webhookId limit offset in
  (enabled q = true ↔ ∃ id, webhookId = Some id ∧ id ≠ "") ∧
  (enabled q = true ↔
   ∃ id, webhookId = Some id ∧
     queryFn q = inr {| url := "/api/schedules/" +:+ id +:+ "/executions";
                        param_limit := default 20 limit;
                        param_offset := default 0 offset |}) ∧
  (enabled q = false ↔ queryFn q = inl "Webhook ID is required") ∧
  queryKey q =
    ("job-executions", webhookId, default 20 limit, Some (default 0 offset)).
Proof.
  intros q. subst q. unfold useJobExecutions. simpl.
  rewrite andb_true_r.
  destruct webhookId as [[|a id]|]; simpl.
  - split; [split; [done|by intros (? & [= <-] & ?)]|].
    split; [split; [done|by intros (? & [= <-] & ?)]|]. done.
  - split; [split; [by eauto|done]|].
    split; [split; [by eauto|done]|]. done.
  - split; [split; [done|by intros (? & [=] & ?)]|].
    split; [split; [done|by intros (? & [=] & ?)]|]. done.
Qed.

End QueryCoverage.

Lemma X13_appendNew_spec_witness :
  Loader.appendNew (Loader.data (Loader.samplePage 5 10))
                   (Loader.data (Loader.samplePage 0 20))
  = Loader.data (Loader.samplePage 0 20).
Proof.
  refine (proj2 (proj2 (proj2 (proj2 (X13_appendNew_spec _ _)))) _).
  apply (bool_decide_unpack _). vm_compute. reflexivity.
Defined.

Lemma X14_first_page_is_shown_witness :
  Loader.view (Loader.step (Loader.InitialPageArrives (Loader.samplePage 0 20))
                           (Loader.run [])) =
  (Loader.data (Loader.samplePage 0 20), 45, 0, true, false).
Proof.
  refine (X14_first_page_is_shown [] (Loader.samplePage 0 20) _ _ _).
  - reflexivity.
  - left. reflexivity.
  - discriminate.
Defined.

Lemma X15_background_refetch_keeps_list_witness :
  let s := Loader.run [Loader.InitialPageArrives (Loader.samplePage 0 20)] in
  Loader.view (Loader.step (Loader.InitialPageArrives (Loader.samplePage 3 20)) s)
  = Loader.view s.
Proof.
  refine (proj1 (X15_background_refetch_keeps_list
                   [Loader.InitialPageArrives (Loader.samplePage 0 20)]
                   (Loader.samplePage 3 20) _)).
  right. split; [vm_compute; discriminate|vm_compute; reflexivity].
Defined.

Lemma X17_load_more_accepted_witness :
  let s := Loader.run [Loader.InitialPageArrives (Loader.samplePage 0 20)] in
  Loader.loadMoreOffset (Loader.step Loader.LoadMore s) = Some 20 ∧
  Loader.step Loader.LoadMore (Loader.step Loader.LoadMore s)
  = Loader.step Loader.LoadMore s.
Proof.
  refine (proj2 (X17_load_more_accepted
                   [Loader.InitialPageArrives (Loader.samplePage 0 20)] _)).
  vm_compute. reflexivity.
Defined.

Lemma X18_blocked_until_page_or_reset_witness :
  let s := Loader.run [Loader.InitialPageArrives (Loader.samplePage 0 20);
                       Loader.LoadMore] in
  Loader.view (Loader.runFrom s [Loader.MoreFetchFails; Loader.LoadMore;
                                 Loader.LoadMore])
  = Loader.view s.
Proof.
  refine (proj1 (X18_blocked_until_page_or_reset
                   [Loader.InitialPageArrives (Loader.samplePage 0 20);
                    Loader.LoadMore]
                   [Loader.MoreFetchFails; Loader.LoadMore; Loader.LoadMore]
                   _ _)).
  - left. vm_compute. reflexivity.
  - constructor; [by right|]. constructor; [by left|].
    constructor; [by left|]. constructor.
Defined.

Lemma X19_scrolling_only_appends_witness :
  let s := Loader.run [Loader.InitialPageArrives (Loader.samplePage 0 20)] in
  Loader.totalExecutions
    (Loader.runFrom s [Loader.LoadMore;
                       Loader.MorePageArrives (Loader.samplePage 20 20)])
  = Loader.totalExecutions s.
Proof.
  refine (proj2 (X19_scrolling_only_appends
                   [Loader.InitialPageArrives (Loader.samplePage 0 20)]
                   [Loader.LoadMore;
                    Loader.MorePageArrives (Loader.samplePage 20 20)] _)).
  constructor; [by left|]. constructor; [right; right; by eexists|].
  constructor.
Defined.

Lemma X20_refresh_click_witness :
  let s := Loader.run [Loader.InitialPageArrives (Loader.samplePage 0 20);
                       Loader.LoadMore;
                       Loader.MorePageArrives (Loader.samplePage 20 20)] in
  Loader.isRefreshing (Loader.step Loader.RefreshClicked s) = true.
Proof.
  refine (proj1 (proj2 (X20_refresh_click
                          [Loader.InitialPageArrives (Loader.samplePage 0 20);
                           Loader.LoadMore;
                           Loader.MorePageArrives (Loader.samplePage 20 20)]) _)).
  vm_compute. reflexivity.
Defined.

(** ** The form of the notification channels *)
Section NotificationsCoverage.

Import Notifications.

Lemma or_else_empty_some (a : string) : a ≠ "" → Js.or_else (Some a) "" = a.
Proof. by destruct a. Qed.

(** X23. Opening a channel for editing and submitting the form unchanged
    sends one update for that channel: its id, its name, and as
    configuration only the address of its type (the e-mail address of an
    e-mail channel, the webhook URL of any other), provided the channel has
    an id, a name that is not blank and that address.  A [channel] entry
    of the stored configuration is not sent back. *)
Theorem X23_edit_then_submit (n : Notification) (f : Form) :
  Js.trim (name n) ≠ "" → id n ≠ "" →
  (if bool_decide (type n = Email)
   then ∃ a, a ≠ "" ∧ cfg_email (config n) = Some a
   else ∃ u, u ≠ "" ∧ cfg_webhook_url (config n) = Some u) →
  handleAddChannel (handleEditChannel n f) =
  Update (id n) (name n)
    (if bool_decide (type n = Email)
     then {| cfg_email := cfg_email (config n); cfg_webhook_url := None;
             cfg_channel := None |}
     else {| cfg_email := None; cfg_webhook_url := cfg_webhook_url (config n);
             cfg_channel := None |}).
Proof.
  intros Hname Hid Haddr. unfold handleAddChannel, handleEditChannel. simpl.
  rewrite bool_decide_eq_false_2 by done.
  destruct (bool_decide (type n = Email)).
  - destruct Haddr as (a & Ha & ->). rewrite (or_else_empty_some a Ha).
    rewrite bool_decide_eq_false_2 by done. by destruct (id n).
  - destruct Haddr as (u & Hu & ->). rewrite (or_else_empty_some u Hu).
    rewrite bool_decide_eq_false_2 by done. by destruct (id n).
Qed.

(** X24. [handleAddChannel] sends nothing and shows the matching error
    when the name is blank, or when the address of the chosen type (the
    e-mail address for e-mail, the webhook URL for the other types) is
    empty.  Otherwise it sends exactly one request: an update of the
    channel being edited, or else the creation of an enabled channel of
    the chosen type; the request carries the name as typed and a
    configuration that holds the address of the chosen type and nothing
    else.  The form left by a successful submission cannot be submitted
    again as it is. *)
Theorem X24_submissions_are_well_formed (f : Form) :
  match handleAddChannel f with
  | Rejected message =>
      (Js.trim (newChannelName f) = "" ∧
       message = "Please enter a channel name") ∨
      (newChannelType f = Email ∧ email (newChannelConfig f) = "" ∧
       message = "Please enter an email address") ∨
      (newChannelType f ≠ Email ∧ webhook_url (newChannelConfig f) = "" ∧
       message = "Please enter a webhook URL")
  | Update notificationId name config =>
      editingNotificationId f = Some notificationId ∧ notificationId ≠ "" ∧
      name = newChannelName f ∧ wellFormed (newChannelType f) name config
  | Create type name enabled config =>
      (editingNotificationId f = None ∨ editingNotificationId f = Some "") ∧
      type = newChannelType f ∧ name = newChannelName f ∧ enabled = true ∧
      wellFormed type name config
  end ∧
  handleAddChannel (submitted f) = Rejected "Please enter a channel name".
Proof.
  split; [|done]. unfold handleAddChannel, wellFormed.
  case_bool_decide as Hname; [by left|].
  destruct (bool_decide (newChannelType f = Email)) eqn:Htype.
  - apply bool_decide_eq_true in Htype.
    case_bool_decide as Haddr; [right; left; done|].
    destruct (editingNotificationId f) as [[|a nid]|] eqn:He; simpl;
      rewrite ?(bool_decide_eq_true_2 _ Htype).
    + split; [by right|]. do 5 (split; [done|]). split; [by eauto|done].
    + do 5 (split; [done|]). split; [by eauto|done].
    + split; [by left|]. do 5 (split; [done|]). split; [by eauto|done].
  - apply bool_decide_eq_false in Htype.
    case_bool_decide as Haddr; [right; right; done|].
    destruct (editingNotificationId f) as [[|a nid]|] eqn:He; simpl;
      rewrite ?(bool_decide_eq_false_2 _ Htype).
    + split; [by right|]. do 5 (split; [done|]). split; [by eauto|done].
    + do 5 (split; [done|]). split; [by eauto|done].
    + split; [by left|]. do 5 (split; [done|]). split; [by eauto|done].
Qed.

End NotificationsCoverage.

(** ** The authentication store *)
Section AuthCoverage.

Import AuthStore.

Lemma dispatch_invariant (s : AuthStoreState) (a : Action) :
  (isAuthenticated s = true → user s ≠ None ∨ accessToken s ≠ None) ∧
  (accessToken s = None ↔ refreshToken s = None) →
  (isAuthenticated (dispatch s a) = true →
     user (dispatch s a) ≠ None ∨ accessToken (dispatch s a) ≠ None) ∧
  (accessToken (dispatch s a) = None ↔ refreshToken (dispatch s a) = None).
Proof.
  intros [Hauth Htok]. destruct a as [u|access refresh| |]; simpl.
  - split; [|done]. intros Hu. left. by apply bool_decide_eq_true in Hu.
  - split; [by right|done].
  - done.
  - done.
Qed.

Lemma foldl_invariant (trace : list Action) (s : AuthStoreState) :
  (isAuthenticated s = true → user s ≠ None ∨ accessToken s ≠ None) ∧
  (accessToken s = None ↔ refreshToken s = None) →
  (isAuthenticated (foldl dispatch s trace) = true →
     user (foldl dispatch s trace) ≠ None ∨
     accessToken (foldl dispatch s trace) ≠ None) ∧
  (accessToken (foldl dispatch s trace) = None ↔
   refreshToken (foldl dispatch s trace) = None).
Proof.
  revert s. induction trace as [|a trace IH]; intros s Hs; simpl; [done|].
  by apply IH, dispatch_invariant.
Qed.

(** X25. After any sequence of the four actions of the store: when
    [isAuthenticated] is set, there is a user or an access token; the two
    tokens are present together or absent together; [clearAuth] and
    [logout] (and so a deleted account, which also sends the browser to the
    login page) leave the initial state.  The flag does not say that a
    user is known or that tokens are held: [setUser(null)] clears it and
    keeps the tokens, and [setTokens] sets it without a user. *)
Theorem X25_auth_store_invariants (trace : list Action) :
  let s := after trace in
  (isAuthenticated s = true → user s ≠ None ∨ accessToken s ≠ None) ∧
  (accessToken s = None ↔ refreshToken s = None) ∧
  after (trace ++ [ClearAuth]) = initialState ∧
  after (trace ++ [Logout]) = initialState ∧
  onAccountDeleted s = (initialState, "/login") ∧
  (∀ access refresh,
     isAuthenticated (after (trace ++ [SetTokens access refresh; SetUser None]))
       = false ∧
     accessToken (after (trace ++ [SetTokens access refresh; SetUser None]))
       = Some access) ∧
  (∀ access refresh,
     isAuthenticated (after (trace ++ [ClearAuth; SetTokens access refresh]))
       = true ∧
     user (after (trace ++ [ClearAuth; SetTokens access refresh])) = None).
Proof.
  intros s. subst s. unfold after.
  destruct (foldl_invariant trace initialState) as [Hauth Htok]; [done|].
  split; [done|]. split; [done|].
  rewrite !foldl_app. simpl.
  do 3 (split; [done|]).
  split; intros access refresh; rewrite !foldl_app; split; done.
Qed.

End AuthCoverage.

Lemma X23_edit_then_submit_witness :
  Notifications.handleAddChannel
    (Notifications.handleEditChannel Notifications.sampleNotification
                                     Notifications.emptyForm) =
  Notifications.Update "n-1" "Ops alerts"
    {| Notifications.cfg_email := None;
       Notifications.cfg_webhook_url := Some "https://hooks.example/T1";
       Notifications.cfg_channel := None |}.
Proof.
  refine (X23_edit_then_submit Notifications.sampleNotification
            Notifications.emptyForm _ _ _).
  - vm_compute. discriminate.
  - discriminate.
  - exists "https://hooks.example/T1". split; [discriminate|reflexivity].
Defined.

Lemma X25_auth_store_invariants_witness :
  let s := AuthStore.after
             [AuthStore.SetTokens "access" "refresh";
              AuthStore.SetUser (Some {| AuthStore.user_id := "u-1";
                                         AuthStore.user_email := "a@b.c" |})] in
  AuthStore.user s ≠ None ∨ AuthStore.accessToken s ≠ None.
Proof.
  refine (proj1 (X25_auth_store_invariants
                   [AuthStore.SetTokens "access" "refresh";
                    AuthStore.SetUser (Some {| AuthStore.user_id := "u-1";
                                               AuthStore.user_email := "a@b.c" |})])
            _).
  vm_compute. reflexivity.
Defined.
